(** * The mlpack ANN core: layers and the FFN container

    A shallow embedding of the layer code under [methods/ann/layer]
    (Dropout, AlphaDropout, AddMerge, Linear) and of the inline members of
    the [FFN] class of [methods/ann/ffn.hpp], with the properties the
    specification states about them.

    Conventions.
    - A dense matrix ([arma::mat]) is a record of its two extents and its
      column-major memory.
    - The element type is the [elem_type] of the [InputType]/[OutputType]
      template parameters; it is a class, and [double] is its instance for
      the default [arma::mat] (IEEE binary64).
    - A method that can throw returns a [result]; a method that draws random
      numbers or calls a child layer threads a state through. *)

From Stdlib Require Import ZArith QArith Qcanon List Bool Arith Lia PrimFloat.
Import ListNotations.
Close Scope Qc_scope.
Close Scope Q_scope.

(* ------------------------------------------------------------------ *)
(** ** Failures *)

(** [incompatible_dimensions]: the [std::logic_error] Armadillo throws when
    the operands of an elementwise operation differ in size.
    [out_of_bounds]: an index or [front()] applied outside a container. *)
Inductive error : Type :=
| incompatible_dimensions
| out_of_bounds.

Inductive result (A : Type) : Type :=
| Ok (a : A)
| Err (e : error).
Arguments Ok {A} a.
Arguments Err {A} e.

(** Computations over a threaded state [S] that may fail. *)
Definition St (S A : Type) : Type := S -> result (A * S).

Definition ret {S A : Type} (a : A) : St S A := fun s => Ok (a, s).

Definition bind {S A B : Type} (m : St S A) (k : A -> St S B) : St S B :=
  fun s => match m s with
           | Ok (a, s') => k a s'
           | Err e => Err e
           end.

Definition fail {S A : Type} (e : error) : St S A := fun _ => Err e.

Definition lift_result {S A : Type} (r : result A) : St S A :=
  fun s => match r with
           | Ok a => Ok (a, s)
           | Err e => Err e
           end.

Declare Scope st_scope.
Delimit Scope st_scope with st.
Notation "x <- m ;; k" := (bind m (fun x => k))
  (at level 100, m at next level, right associativity) : st_scope.
Open Scope st_scope.

(* ------------------------------------------------------------------ *)
(** ** Dense matrices *)

Module Arma.

(** The element type of a matrix with the operations the layers use. *)
Class ElemType : Type := {
  elem : Type;
  e0 : elem;
  e1 : elem;
  eadd : elem -> elem -> elem;
  esub : elem -> elem -> elem;
  emul : elem -> elem -> elem;
  ediv : elem -> elem -> elem;
  egt : elem -> elem -> bool
}.

(** [double]: the element type of [arma::mat]. *)
Definition double : ElemType := {|
  elem := float;
  e0 := 0%float;
  e1 := 1%float;
  eadd := PrimFloat.add;
  esub := PrimFloat.sub;
  emul := PrimFloat.mul;
  ediv := PrimFloat.div;
  egt := fun x y => PrimFloat.ltb y x
|}.

(** The rationals, as an element type whose arithmetic is exact. *)
Definition rational : ElemType := {|
  elem := Qc;
  e0 := Q2Qc 0;
  e1 := Q2Qc 1;
  eadd := Qcplus;
  esub := Qcminus;
  emul := Qcmult;
  ediv := Qcdiv;
  egt := fun x y => match Qccompare y x with Lt => true | _ => false end
|}.

(** The laws of exact arithmetic that the identities below rest on.
    [double] does not satisfy all of them (a signed zero breaks
    [x + 0 = x]); [rational] does. *)
Record ExactArithmetic (E : ElemType) : Prop := {
  emul_1_r : forall x : elem, emul x e1 = x;
  emul_0_r : forall x : elem, emul x e0 = e0;
  eadd_0_r : forall x : elem, eadd x e0 = x;
  esub_diag_1 : esub e1 e1 = e0
}.

Section Mat.
Context {E : ElemType}.

Record mat : Type := {
  n_rows : nat;
  n_cols : nat;
  mem : list elem
}.

Definition n_elem (A : mat) : nat := n_rows A * n_cols A.

(** A default-constructed matrix is 0 x 0. *)
Definition empty : mat := {| n_rows := 0; n_cols := 0; mem := [] |}.

(** The memory holds one element per entry. *)
Definition wf (A : mat) : Prop := length (mem A) = n_elem A.

Definition same_size (A B : mat) : bool :=
  (n_rows A =? n_rows B) && (n_cols A =? n_cols B).

Fixpoint map2 (f : elem -> elem -> elem) (xs ys : list elem) : list elem :=
  match xs, ys with
  | x :: xs', y :: ys' => f x y :: map2 f xs' ys'
  | _, _ => []
  end.

(** An elementwise binary operation; Armadillo checks the sizes first. *)
Definition elementwise (f : elem -> elem -> elem) (A B : mat) : result mat :=
  if same_size A B
  then Ok {| n_rows := n_rows A; n_cols := n_cols A;
             mem := map2 f (mem A) (mem B) |}
  else Err incompatible_dimensions.

(** [A % B] *)
Definition schur : mat -> mat -> result mat := elementwise emul.

(** [A + B] and [A += B] *)
Definition plus : mat -> mat -> result mat := elementwise eadd.

(** [A.transform(f)] and the other operations with a scalar. *)
Definition transform (f : elem -> elem) (A : mat) : mat :=
  {| n_rows := n_rows A; n_cols := n_cols A; mem := map f (mem A) |}.

(** [A * k] *)
Definition times_scalar (A : mat) (k : elem) : mat :=
  transform (fun x => emul x k) A.

(** [k * A] *)
Definition scalar_times (k : elem) (A : mat) : mat :=
  transform (fun x => emul k x) A.

(** [A + k] *)
Definition plus_scalar (A : mat) (k : elem) : mat :=
  transform (fun x => eadd x k) A.

(** [k - A] *)
Definition scalar_minus (k : elem) (A : mat) : mat :=
  transform (fun x => esub k x) A.

(** [arma::ones(r, c)] *)
Definition ones (r c : nat) : mat :=
  {| n_rows := r; n_cols := c; mem := repeat e1 (r * c) |}.

(** Entry [k] of the column-major memory. *)
Definition at_ (A : mat) (k : nat) : elem := nth k (mem A) e0.

(** [A.cols(first, first + count - 1)]: [count] columns from column
    [first] on. *)
Definition cols (A : mat) (first count : nat) : result mat :=
  if first + count <=? n_cols A
  then Ok {| n_rows := n_rows A; n_cols := count;
             mem := firstn (count * n_rows A)
                           (skipn (first * n_rows A) (mem A)) |}
  else Err out_of_bounds.

(** The random number generator: a fixed sequence of draws and the
    position of the next one. *)
Record rng : Type := {
  stream : nat -> elem;
  pos : nat
}.

(** The next [r * c] draws, as an [r] x [c] matrix. *)
Definition drawn (r c : nat) (g : rng) : mat :=
  {| n_rows := r; n_cols := c;
     mem := map (fun i => stream g (pos g + i)) (seq 0 (r * c)) |}.

(** The generator after [n] draws. *)
Definition advance (n : nat) (g : rng) : rng :=
  {| stream := stream g; pos := pos g + n |}.

(** [arma::randu<MatType>(r, c)] *)
Definition randu (r c : nat) : St rng mat :=
  fun g => Ok (drawn r c g, advance (r * c) g).

End Mat.

End Arma.

Import Arma.

(* ------------------------------------------------------------------ *)
(** ** The layer interface *)

Module Layer.

(** Modelled from the spec: [layer.hpp], which declares the base class
    [Layer<InputType, OutputType>], is not among the sources. The three
    virtual methods are taken with the arguments the callers in
    [add_merge_impl.hpp] pass: [Forward(input, output)],
    [Backward(input, gy, g)] and [Gradient(input, error, gradient)]. A method
    returns the layer after the call and the matrix it wrote; [Gradient] also
    receives the gradient buffer it writes into. *)
Class Layer {E : ElemType} (L : Type) : Type := {
  Forward : L -> mat -> St rng (L * mat);
  Backward : L -> mat -> mat -> St rng (L * mat);
  Gradient : L -> mat -> mat -> mat -> St rng (L * mat)
}.

End Layer.

(* ------------------------------------------------------------------ *)
(** ** Dropout ([dropout_impl.hpp]) *)

Module Dropout.
Section Dropout.
Context {E : ElemType}.

(** The members of [DropoutType] and the [training] flag it inherits. *)
Record DropoutType : Type := {
  training : bool;
  mask : mat;
  ratio : elem;
  scale : elem
}.

(** [DropoutType::DropoutType(ratio)].

    Modelled from the spec: the initial value of the inherited [training]
    flag is set in [layer.hpp], which is not among the sources; the default
    mode is evaluation. *)
Definition Construct (ratio : elem) : DropoutType :=
  {| training := false;
     mask := empty;
     ratio := ratio;
     scale := ediv e1 (esub e1 ratio) |}.

(** Modelled from the spec: [SetTraining(bool)] of the base class. *)
Definition SetTraining (d : DropoutType) (t : bool) : DropoutType :=
  {| training := t; mask := mask d; ratio := ratio d; scale := scale d |}.

Definition set_mask (d : DropoutType) (m : mat) : DropoutType :=
  {| training := training d; mask := m; ratio := ratio d; scale := scale d |}.

(** [mask.transform([&](double val) { return (val > ratio); })] *)
Definition keep (ratio : elem) (val : elem) : elem :=
  if egt val ratio then e1 else e0.

(** [DropoutType::Forward(input, output)] *)
Definition Forward (d : DropoutType) (input : mat) : St rng (DropoutType * mat) :=
  if negb (training d) then
    ret (d, input)
  else
    m <- randu (n_rows input) (n_cols input) ;;
    let mask' := transform (keep (ratio d)) m in
    masked <- lift_result (schur input mask') ;;
    ret (set_mask d mask', times_scalar masked (scale d)).

(** [DropoutType::Backward(input, gy, g)]: [g = gy % mask * scale]. *)
Definition Backward (d : DropoutType) (input gy : mat) : result mat :=
  match schur gy (mask d) with
  | Ok masked => Ok (times_scalar masked (scale d))
  | Err e => Err e
  end.

(** Dropout declares no [Gradient]: the buffer is left as it is. *)
#[local] Instance layer : Layer.Layer DropoutType := {|
  Layer.Forward := Forward;
  Layer.Backward := fun d input gy =>
    g <- lift_result (Backward d input gy) ;; ret (d, g);
  Layer.Gradient := fun d _ _ gradient => ret (d, gradient)
|}.

End Dropout.
End Dropout.

(* ------------------------------------------------------------------ *)
(** ** AlphaDropout ([alpha_dropout_impl.hpp]) *)

Module AlphaDropout.
Section AlphaDropout.
Context {E : ElemType}.

(** Modelled from the spec: [Ratio(r)], which the constructor calls, is
    defined in [alpha_dropout.hpp], not among the sources. It stores the
    ratio and fixes the coefficients [a] and [b] of the affine correction
    from the ratio and [alphaDash]; the spec gives no formula, so the pair
    is a parameter. *)
Variable coefficients : elem -> elem -> elem * elem.

(** The members of [AlphaDropoutType], and the [training] flag of the base
    class, which no method of this layer reads. *)
Record AlphaDropoutType : Type := {
  training : bool;
  mask : mat;
  ratio : elem;
  alphaDash : elem;
  a : elem;
  b : elem;
  deterministic : bool
}.

Definition Ratio (l : AlphaDropoutType) (r : elem) : AlphaDropoutType :=
  {| training := training l;
     mask := mask l;
     ratio := r;
     alphaDash := alphaDash l;
     a := fst (coefficients r (alphaDash l));
     b := snd (coefficients r (alphaDash l));
     deterministic := deterministic l |}.

(** [AlphaDropoutType::AlphaDropoutType(ratio, alphaDash)]: the member
    initialisers, then [Ratio(ratio)], which gives [a] and [b] their first
    values. *)
Definition Construct (ratio alphaDash : elem) : AlphaDropoutType :=
  Ratio {| training := false;
           mask := empty;
           ratio := ratio;
           alphaDash := alphaDash;
           a := fst (coefficients ratio alphaDash);
           b := snd (coefficients ratio alphaDash);
           deterministic := false |} ratio.

(** Modelled from the spec: [SetTraining(bool)] of the base class. *)
Definition SetTraining (l : AlphaDropoutType) (t : bool) : AlphaDropoutType :=
  {| training := t; mask := mask l; ratio := ratio l;
     alphaDash := alphaDash l; a := a l; b := b l;
     deterministic := deterministic l |}.

(** Assignment through the accessor [Deterministic()]. *)
Definition SetDeterministic (l : AlphaDropoutType) (t : bool) : AlphaDropoutType :=
  {| training := training l; mask := mask l; ratio := ratio l;
     alphaDash := alphaDash l; a := a l; b := b l;
     deterministic := t |}.

Definition set_mask (l : AlphaDropoutType) (m : mat) : AlphaDropoutType :=
  {| training := training l; mask := m; ratio := ratio l;
     alphaDash := alphaDash l; a := a l; b := b l;
     deterministic := deterministic l |}.

(** [AlphaDropoutType::Forward(input, output)] *)
Definition Forward (l : AlphaDropoutType) (input : mat)
  : St rng (AlphaDropoutType * mat) :=
  if deterministic l then
    ret (l, input)
  else
    m <- randu (n_rows input) (n_cols input) ;;
    let mask' := transform (Dropout.keep (ratio l)) m in
    kept <- lift_result (schur input mask') ;;
    mixed <- lift_result
               (plus kept (scalar_times (alphaDash l) (scalar_minus e1 mask'))) ;;
    ret (set_mask l mask', plus_scalar (times_scalar mixed (a l)) (b l)).

(** [AlphaDropoutType::Backward(input, gy, g)]: [g = gy % mask * a]. *)
Definition Backward (l : AlphaDropoutType) (input gy : mat) : result mat :=
  match schur gy (mask l) with
  | Ok masked => Ok (times_scalar masked (a l))
  | Err e => Err e
  end.

(** What [serialize] passes to the archive, by name: [ratio], [alphaDash],
    [a] and [b]. Neither the mask nor [deterministic] is among them. *)
Record archive : Type := {
  ar_ratio : elem;
  ar_alphaDash : elem;
  ar_a : elem;
  ar_b : elem
}.

(** [AlphaDropoutType::serialize(ar, version)] with a saving archive. *)
Definition serialize_save (l : AlphaDropoutType) : archive :=
  {| ar_ratio := ratio l;
     ar_alphaDash := alphaDash l;
     ar_a := a l;
     ar_b := b l |}.

(** [AlphaDropoutType::serialize(ar, version)] with a loading archive: the
    four members are overwritten, the others stay as the object has them. *)
Definition serialize_load (ar : archive) (l : AlphaDropoutType)
  : AlphaDropoutType :=
  {| training := training l;
     mask := mask l;
     ratio := ar_ratio ar;
     alphaDash := ar_alphaDash ar;
     a := ar_a ar;
     b := ar_b ar;
     deterministic := deterministic l |}.

End AlphaDropout.
End AlphaDropout.

(* ------------------------------------------------------------------ *)
(** ** AddMerge ([add_merge_impl.hpp]) *)

Module AddMerge.

(** A call of a virtual method of the child at a position of [network]. *)
Inductive call : Type :=
| CallForward (i : nat)
| CallBackward (i : nat)
| CallGradient (i : nat).

Section AddMerge.
Context {E : ElemType} {L : Type} {LL : Layer.Layer L}.

(** A child as [AddMergeType] sees it: the layer and the three buffers
    reached through [OutputParameter()], [Delta()] and [Gradient()]. The
    children of one [network] are distinct objects (the destructor deletes
    each of them once). *)
Record Child : Type := {
  layer : L;
  OutputParameter : mat;
  Delta : mat;
  Gradient_ : mat
}.

Record AddMergeType : Type := {
  model : bool;
  run : bool;
  ownsLayers : bool;
  network : list Child
}.

(** [AddMergeType::AddMergeType(model, run)] *)
Definition Construct (model run : bool) : AddMergeType :=
  {| model := model; run := run; ownsLayers := negb model; network := [] |}.

(** [AddMergeType::AddMergeType(model, run, ownsLayers)] *)
Definition Construct3 (model run ownsLayers : bool) : AddMergeType :=
  {| model := model; run := run; ownsLayers := ownsLayers; network := [] |}.

Definition set_network (am : AddMergeType) (cs : list Child) : AddMergeType :=
  {| model := model am; run := run am; ownsLayers := ownsLayers am;
     network := cs |}.

(** The state the methods thread: the generator and the calls of child
    methods made so far. *)
Record world : Type := {
  gen : rng;
  calls : list call
}.

(** A call of a child's method: it runs on the generator and is recorded. *)
Definition invoke {A : Type} (c : call) (m : St rng A) : St world A :=
  fun w => match m (gen w) with
           | Ok (x, g') => Ok (x, {| gen := g'; calls := calls w ++ [c] |})
           | Err e => Err e
           end.

(** [network[i]->Forward(input, network[i]->OutputParameter())] *)
Definition child_Forward (c : Child) (input : mat) : St rng Child :=
  r <- Layer.Forward (layer c) input ;;
  ret {| layer := fst r; OutputParameter := snd r;
         Delta := Delta c; Gradient_ := Gradient_ c |}.

(** [network[i]->Backward(network[i]->OutputParameter(), gy,
    network[i]->Delta())] *)
Definition child_Backward (c : Child) (gy : mat) : St rng Child :=
  r <- Layer.Backward (layer c) (OutputParameter c) gy ;;
  ret {| layer := fst r; OutputParameter := OutputParameter c;
         Delta := snd r; Gradient_ := Gradient_ c |}.

(** [network[i]->Gradient(input, error, network[i]->Gradient())] *)
Definition child_Gradient (c : Child) (input error : mat) : St rng Child :=
  r <- Layer.Gradient (layer c) input error (Gradient_ c) ;;
  ret {| layer := fst r; OutputParameter := OutputParameter c;
         Delta := Delta c; Gradient_ := snd r |}.

(** [for (size_t i = 0; i < network.size(); ++i) network[i]->...]: the
    children from position [i] on, in order. *)
Fixpoint for_each (f : nat -> Child -> St world Child) (i : nat)
         (cs : list Child) : St world (list Child) :=
  match cs with
  | [] => ret []
  | c :: cs' =>
      c' <- f i c ;;
      cs'' <- for_each f (S i) cs' ;;
      ret (c' :: cs'')
  end.

(** [output += network[i]->...] for the remaining children. *)
Fixpoint accumulate (buffer : Child -> mat) (output : mat) (cs : list Child)
  : result mat :=
  match cs with
  | [] => Ok output
  | c :: cs' =>
      match plus output (buffer c) with
      | Ok output' => accumulate buffer output' cs'
      | Err e => Err e
      end
  end.

(** [output = network.front()->...; for (i = 1; ...) output += ...] *)
Definition merge (buffer : Child -> mat) (cs : list Child) : result mat :=
  match cs with
  | [] => Err out_of_bounds
  | c :: cs' => accumulate buffer (buffer c) cs'
  end.

(** The first statement of Forward: [if (run) { for (...)
    network[i]->Forward(input, network[i]->OutputParameter()); }]. *)
Definition forward_children (am : AddMergeType) (input : mat)
  : St world (list Child) :=
  if run am
  then for_each (fun i c => invoke (CallForward i) (child_Forward c input))
                0 (network am)
  else ret (network am).

(** [AddMergeType::Forward(input, output)] *)
Definition Forward (am : AddMergeType) (input : mat)
  : St world (AddMergeType * mat) :=
  cs <- forward_children am input ;;
  output <- lift_result (merge OutputParameter cs) ;;
  ret (set_network am cs, output).

(** [AddMergeType::Backward(input, gy, g)] *)
Definition Backward (am : AddMergeType) (input gy : mat)
  : St world (AddMergeType * mat) :=
  if run am then
    cs <- for_each (fun i c => invoke (CallBackward i) (child_Backward c gy))
                   0 (network am) ;;
    g <- lift_result (merge Delta cs) ;;
    ret (set_network am cs, g)
  else
    ret (am, gy).

(** [network[index] = c'] *)
Fixpoint replace_at (cs : list Child) (index : nat) (c' : Child) : list Child :=
  match cs, index with
  | [], _ => []
  | _ :: cs', 0 => c' :: cs'
  | c :: cs', S i => c :: replace_at cs' i c'
  end.

(** [AddMergeType::Backward(input, gy, g, index)] *)
Definition Backward_index (am : AddMergeType) (input gy : mat) (index : nat)
  : St world (AddMergeType * mat) :=
  match nth_error (network am) index with
  | None => fail out_of_bounds
  | Some c =>
      c' <- invoke (CallBackward index) (child_Backward c gy) ;;
      ret (set_network am (replace_at (network am) index c'), Delta c')
  end.

(** [AddMergeType::Gradient(input, error, gradient)]; the third argument
    is not touched. *)
Definition Gradient (am : AddMergeType) (input error : mat)
  : St world AddMergeType :=
  if run am then
    cs <- for_each (fun i c => invoke (CallGradient i)
                                      (child_Gradient c input error))
                   0 (network am) ;;
    ret (set_network am cs)
  else
    ret am.

(** [AddMergeType::~AddMergeType()]: the children it deletes. *)
Definition Destroy (am : AddMergeType) : list Child :=
  if negb (model am) && ownsLayers am then network am else [].

(** [AddMergeType::Gradient(input, error, gradient, index)] *)
Definition Gradient_index (am : AddMergeType) (input error : mat) (index : nat)
  : St world AddMergeType :=
  match nth_error (network am) index with
  | None => fail out_of_bounds
  | Some c =>
      c' <- invoke (CallGradient index) (child_Gradient c input error) ;;
      ret (set_network am (replace_at (network am) index c'))
  end.

End AddMerge.
End AddMerge.


(* ------------------------------------------------------------------ *)
(** ** Linear ([linear.hpp]) *)

Module Linear.
Section Linear.
Context {E : ElemType}.

(** [size_t] is 64 bits wide and [int] 32 bits wide, two's complement. *)
Definition to_size_t (z : Z) : Z := z mod 2 ^ 64.

Definition to_int (z : Z) : Z := (z + 2 ^ 31) mod 2 ^ 32 - 2 ^ 31.

(** [std::accumulate(first, last, init)] with an [int] for [init] over a
    [std::vector<size_t>]: each step computes [init + *first] in [size_t] and
    stores it back into the [int]. *)
Definition accumulate (xs : list Z) (init : Z) : Z :=
  fold_left (fun acc x => to_int (to_size_t (to_size_t acc + x))) xs init.

(** The members of [LinearType] and the two dimension descriptors it
    inherits. The regularizer takes no part in what follows. *)
Record LinearType : Type := {
  inputDimensions : list Z;
  outputDimensions : list Z;
  inSize : Z;
  outSize : Z;
  weights : mat;
  weight : mat;
  bias : mat
}.

(** Assignment through the accessor [InputDimensions()] of the base class. *)
Definition set_inputDimensions (l : LinearType) (dims : list Z) : LinearType :=
  {| inputDimensions := dims;
     outputDimensions := outputDimensions l;
     inSize := inSize l;
     outSize := outSize l;
     weights := weights l;
     weight := weight l;
     bias := bias l |}.

(** [LinearType::ComputeOutputDimensions()]. Writing [outputDimensions[0]]
    when the vector is empty is outside its bounds. *)
Definition ComputeOutputDimensions (l : LinearType) : result LinearType :=
  let inSize' := to_size_t (accumulate (inputDimensions l) 0) in
  match repeat 1%Z (length (inputDimensions l)) with
  | [] => Err out_of_bounds
  | _ :: ones =>
      Ok {| inputDimensions := inputDimensions l;
            outputDimensions := outSize l :: ones;
            inSize := inSize';
            outSize := outSize l;
            weights := weights l;
            weight := weight l;
            bias := bias l |}
  end.

(** [LinearType::WeightSize()] *)
Definition WeightSize (l : LinearType) : Z :=
  to_size_t (to_size_t (inSize l * outSize l) + outSize l).

(** The total element count that a dimension descriptor implies, in the
    words of the specification: the product of the extents. *)
Definition spec_element_count (dims : list Z) : Z :=
  fold_left Z.mul dims 1%Z.

End Linear.
End Linear.

(* ------------------------------------------------------------------ *)
(** ** The network ([ffn.hpp]) *)

Module FFN.
Section FFN.
Context {E : ElemType}.

(** The template parameters of the class, and the type behind the
    [Layer<InputType, OutputType>*] elements of [network]. *)
Context {OutputLayerType InitializationRuleType LayerType : Type}.

(** The data members of [FFN], in the order of their declaration. *)
Record FFN : Type := {
  outputLayer : OutputLayerType;
  initializeRule : InitializationRuleType;
  network : list LayerType;
  parameters : mat;
  inputDimensions : list Z;
  predictors : mat;
  responses : mat;
  error_ : mat;
  training : bool;
  layerMemoryIsSet : bool;
  inputDimensionsAreSet : bool;
  totalInputSize : Z;
  totalOutputSize : Z;
  layerOutputMatrix : mat;
  layerOutputs : list mat;
  deltaMatrix : mat;
  layerDeltas : list mat;
  layerGradients : list mat
}.

(** [FFN::Add(Layer<InputType, OutputType>* layer)]; the variadic overload
    does the same with [new LayerType(args...)]. *)
Definition Add (net : FFN) (layer : LayerType) : FFN :=
  {| outputLayer := outputLayer net;
     initializeRule := initializeRule net;
     network := network net ++ [layer];
     parameters := parameters net;
     inputDimensions := inputDimensions net;
     predictors := predictors net;
     responses := responses net;
     error_ := error_ net;
     training := training net;
     layerMemoryIsSet := layerMemoryIsSet net;
     inputDimensionsAreSet := false;
     totalInputSize := totalInputSize net;
     totalOutputSize := totalOutputSize net;
     layerOutputMatrix := layerOutputMatrix net;
     layerOutputs := layerOutputs net ++ [empty];
     deltaMatrix := deltaMatrix net;
     layerDeltas := layerDeltas net ++ [empty];
     layerGradients := layerGradients net ++ [empty] |}.

(** [std::vector<size_t>& InputDimensions() { return inputDimensions; }]:
    the dimensions the returned reference shows, and the network after the
    call. *)
Definition InputDimensions (net : FFN) : list Z * FFN :=
  (inputDimensions net, net).

(** An assignment through the reference that [InputDimensions()] returned. *)
Definition InputDimensions_assign (net : FFN) (dims : list Z) : FFN :=
  {| outputLayer := outputLayer net;
     initializeRule := initializeRule net;
     network := network net;
     parameters := parameters net;
     inputDimensions := dims;
     predictors := predictors net;
     responses := responses net;
     error_ := error_ net;
     training := training net;
     layerMemoryIsSet := layerMemoryIsSet net;
     inputDimensionsAreSet := inputDimensionsAreSet net;
     totalInputSize := totalInputSize net;
     totalOutputSize := totalOutputSize net;
     layerOutputMatrix := layerOutputMatrix net;
     layerOutputs := layerOutputs net;
     deltaMatrix := deltaMatrix net;
     layerDeltas := layerDeltas net;
     layerGradients := layerGradients net |}.

(** The read-only overload [InputDimensions() const] is not modelled: its
    body assigns [inputDimensionsAreSet], which is not declared [mutable], so
    no call of it compiles. *)

(** [FFN::Model()], both overloads: the layers, and the network as it was. *)
Definition Model (net : FFN) : list LayerType * FFN := (network net, net).

(** An assignment through the reference that the mutable [Model()]
    returned. *)
Definition Model_assign (net : FFN) (layers : list LayerType) : FFN :=
  {| outputLayer := outputLayer net;
     initializeRule := initializeRule net;
     network := layers;
     parameters := parameters net;
     inputDimensions := inputDimensions net;
     predictors := predictors net;
     responses := responses net;
     error_ := error_ net;
     training := training net;
     layerMemoryIsSet := layerMemoryIsSet net;
     inputDimensionsAreSet := inputDimensionsAreSet net;
     totalInputSize := totalInputSize net;
     totalOutputSize := totalOutputSize net;
     layerOutputMatrix := layerOutputMatrix net;
     layerOutputs := layerOutputs net;
     deltaMatrix := deltaMatrix net;
     layerDeltas := layerDeltas net;
     layerGradients := layerGradients net |}.

(** [FFN::NumFunctions()] *)
Definition NumFunctions (net : FFN) : nat := n_cols (responses net).

(** Modelled from the spec: [CheckNetwork], [UpdateDimensions] and
    [SetLayerMemory] are declared in [ffn.hpp]; their bodies are in
    [ffn_impl.hpp], not among the sources. By the spec, every Forward,
    Backward and Gradient first validates the network, resolving the
    dimensions when they are stale and aliasing the memory when it is stale,
    and re-deriving the layout invalidates all existing aliases, which have to
    be re-derived before the pass. Only the two flags are modelled, not the
    dimensions and the aliases themselves. *)
Inductive rederivation : Type :=
| Dimensions
| MemoryAliasing.

Definition set_flags (net : FFN) (memory dimensions : bool) : FFN :=
  {| outputLayer := outputLayer net;
     initializeRule := initializeRule net;
     network := network net;
     parameters := parameters net;
     inputDimensions := inputDimensions net;
     predictors := predictors net;
     responses := responses net;
     error_ := error_ net;
     training := training net;
     layerMemoryIsSet := memory;
     inputDimensionsAreSet := dimensions;
     totalInputSize := totalInputSize net;
     totalOutputSize := totalOutputSize net;
     layerOutputMatrix := layerOutputMatrix net;
     layerOutputs := layerOutputs net;
     deltaMatrix := deltaMatrix net;
     layerDeltas := layerDeltas net;
     layerGradients := layerGradients net |}.

(** Modelled from the spec: resolving the dimensions marks them as set and
    the aliases as invalid. *)
Definition UpdateDimensions (net : FFN) : FFN := set_flags net false true.

(** Modelled from the spec: aliasing the memory marks it as set. *)
Definition SetLayerMemory (net : FFN) : FFN :=
  set_flags net true (inputDimensionsAreSet net).

(** Modelled from the spec: the validation before a pass; it returns what it
    re-derived, in order, and the network it leaves. *)
Definition CheckNetwork (net : FFN) : list rederivation * FFN :=
  let resolved :=
    if inputDimensionsAreSet net
    then ([], net)
    else ([Dimensions], UpdateDimensions net) in
  let aliased :=
    if layerMemoryIsSet (snd resolved)
    then ([], snd resolved)
    else ([MemoryAliasing], SetLayerMemory (snd resolved)) in
  (fst resolved ++ fst aliased, snd aliased).

(** Modelled from the spec: the state [Uninitialized] of the network's state
    machine ([Uninitialized -> DimensionsResolved -> MemoryAliased -> Ready])
    is the one from which both the dimensions and the memory aliasing are
    re-derived before the next pass. *)
Definition Uninitialized (net : FFN) : Prop :=
  fst (CheckNetwork net) = [Dimensions; MemoryAliasing].

Section Evaluate.

(** Modelled from the spec: the bodies of [Forward], [Backward] and of both
    [Evaluate] overloads are in [ffn_impl.hpp], not among the sources.
    [NetworkForward net parameters inputs] stands for the forward pass of the
    layers, in order, on [inputs] under [parameters], and
    [OutputLayerForward] for the loss the output layer computes from the last
    layer's output and the targets. *)
Variable NetworkForward : FFN -> mat -> mat -> mat.
Variable OutputLayerForward : OutputLayerType -> mat -> mat -> elem.

(** Modelled from the spec: [Evaluate(parameters)], the whole-dataset form,
    evaluates the network with the given parameters on the stored predictors
    against the stored responses. *)
Definition Evaluate (net : FFN) (parameters : mat) : elem :=
  OutputLayerForward (outputLayer net)
    (NetworkForward net parameters (predictors net))
    (responses net).

(** Modelled from the spec: [Evaluate(parameters, begin, batchSize)], the
    windowed form, produces the value of the forward pass and the loss on
    exactly the slice of [batchSize] columns from [begin] on of the stored
    predictors and responses. *)
Definition Evaluate_batch (net : FFN) (parameters : mat) (begin batchSize : nat)
  : result elem :=
  match cols (predictors net) begin batchSize,
        cols (responses net) begin batchSize with
  | Ok p, Ok r =>
      Ok (OutputLayerForward (outputLayer net) (NetworkForward net parameters p) r)
  | Err e, _ => Err e
  | _, Err e => Err e
  end.

End Evaluate.
End FFN.
End FFN.

(* ------------------------------------------------------------------ *)
(** ** Reference definitions

    What the properties below compare the code with. *)

Module Reference.

Section Elementwise.
Context {E : ElemType}.

(** What Forward and Backward of Dropout compute from a matrix, a mask and a
    scale: entry by entry, the value times the mask entry, times the scale. *)
Definition masked_scaled (A mask : mat) (s : elem) : mat :=
  {| n_rows := n_rows A; n_cols := n_cols A;
     mem := map (fun v => emul v s) (map2 emul (mem A) (mem mask)) |}.

(** What the non-deterministic branch of Forward computes from the input and
    the mask: [(input % mask + alphaDash * (1 - mask)) * a + b]. *)
Definition alpha_dropped (input mask : mat) (alphaDash a b : elem) : mat :=
  {| n_rows := n_rows input; n_cols := n_cols input;
     mem := map (fun v => eadd v b)
              (map (fun v => emul v a)
                 (map2 eadd
                    (map2 emul (mem input) (mem mask))
                    (map (fun v => emul alphaDash v)
                       (map (fun v => esub e1 v) (mem mask))))) |}.

End Elementwise.

Section Children.
Context {E : ElemType} {L : Type} {LL : Layer.Layer L}.

Import AddMerge.

(** Entry [k] summed over the matrices, the first one first. *)
Definition entry_sum (first : mat) (rest : list mat) (k : nat) : elem :=
  fold_left (fun acc m => eadd acc (at_ m k)) rest (at_ first k).

(** The child holds, as its output parameter, what a run of its layer's
    Forward on [input] returned. *)
Definition holds_output_on (input : mat) (c : @AddMerge.Child E L) : Prop :=
  exists (l : L) (g g' : rng),
    Layer.Forward l input g
    = Ok ((AddMerge.layer c, AddMerge.OutputParameter c), g').

(** The matrix is well formed and of the size of [A]. *)
Definition fits (A B : mat) : Prop := same_size A B = true /\ wf B.

End Children.

Section Network.
Context {E : ElemType} {OutputLayerType InitializationRuleType LayerType : Type}.

Import FFN.

(** The network holds one output, one delta and one gradient matrix per
    layer. *)
Definition buffers_match
  (net : @FFN.FFN E OutputLayerType InitializationRuleType LayerType)
  : Prop :=
  length (layerOutputs net) = length (network net) /\
  length (layerDeltas net) = length (network net) /\
  length (layerGradients net) = length (network net).

End Network.

End Reference.

Import Reference.

(* ------------------------------------------------------------------ *)
(** ** Concrete data *)

(** A matrix of shape (3, 2), a sequence of draws and two layers over
    [double], for the examples below. *)
Module Sample.

Definition input : mat (E:=double) :=
  @Build_mat double 3 2 [1; 2; 3; 4; 5; 6]%float.

Definition upstream : mat (E:=double) :=
  @Build_mat double 3 2 [8; 16; 24; 32; 40; 48]%float.

Definition draws (i : nat) : float :=
  nth i [0.75; 0.125; 0.5; 0.25; 0.625; 0.875]%float 0%float.

Definition generator : rng (E:=double) := @Build_rng double draws 0.


(** The same shape over the rationals, and a generator whose every draw is
    one half. *)
Definition exact_input : mat (E:=rational) :=
  @Build_mat rational 3 2
    (map (fun z => Q2Qc (inject_Z z)) [1; 2; 3; 4; 5; 6]%Z).

Definition exact_generator : rng (E:=rational) :=
  @Build_rng rational (fun _ => Q2Qc (1 # 2)) 0.

(** A Dropout layer with ratio one half, as constructed. *)
Definition dropout : Dropout.DropoutType (E:=double) :=
  @Dropout.Construct double 0.5%float.

(** An AddMerge layer that runs its two children, a Dropout layer in
    evaluation mode and one in training mode, and a state to start from. *)
Definition child (d : Dropout.DropoutType (E:=double))
  : @AddMerge.Child double (@Dropout.DropoutType double) :=
  @AddMerge.Build_Child double _ d empty empty empty.

Definition add_merge (run : bool)
  : @AddMerge.AddMergeType double (@Dropout.DropoutType double) :=
  AddMerge.set_network (AddMerge.Construct false run)
    [child dropout; child (Dropout.SetTraining dropout true)].

Definition start : @AddMerge.world double :=
  @AddMerge.Build_world double generator [].

(** A Dropout layer that holds a mask from a training-mode Forward, a child
    that holds the sample input as its output, and an AddMerge layer over two
    such children. *)
Definition mask : mat (E:=double) :=
  @Build_mat double 3 2 [1; 0; 0; 0; 1; 1]%float.

Definition trained : Dropout.DropoutType (E:=double) :=
  Dropout.set_mask (Dropout.SetTraining dropout true) mask.

Definition ran : @AddMerge.Child double (@Dropout.DropoutType double) :=
  @AddMerge.Build_Child double _ trained input empty empty.

Definition merged (run : bool)
  : @AddMerge.AddMergeType double (@Dropout.DropoutType double) :=
  AddMerge.set_network (AddMerge.Construct false run) [ran; ran].

(** A network of two layers (their content plays no part) whose dimensions
    are resolved, holding two data points: the sample input as predictors
    and one response per point. *)
Definition responses : mat (E:=double) := @Build_mat double 1 2 [1; 0]%float.

Definition net : @FFN.FFN double unit unit nat :=
  {| FFN.outputLayer := tt;
     FFN.initializeRule := tt;
     FFN.network := [0; 1];
     FFN.parameters := empty;
     FFN.inputDimensions := [3%Z];
     FFN.predictors := input;
     FFN.responses := responses;
     FFN.error_ := empty;
     FFN.training := false;
     FFN.layerMemoryIsSet := true;
     FFN.inputDimensionsAreSet := true;
     FFN.totalInputSize := 0%Z;
     FFN.totalOutputSize := 0%Z;
     FFN.layerOutputMatrix := empty;
     FFN.layerOutputs := [empty; empty];
     FFN.deltaMatrix := empty;
     FFN.layerDeltas := [empty; empty];
     FFN.layerGradients := [empty; empty] |}.

End Sample.

(* ------------------------------------------------------------------ *)
(** * Properties *)

(** ** Matrices *)

Section MatFacts.
Context {E : ElemType}.

Lemma same_size_refl (A : mat) : same_size A A = true.
Proof.
  unfold same_size. now rewrite !Nat.eqb_refl.
Qed.

Lemma same_size_eq (A B : mat) :
  same_size A B = true -> n_rows A = n_rows B /\ n_cols A = n_cols B.
Proof.
  unfold same_size. intros H.
  apply andb_true_iff in H as [Hr Hc].
  split; now apply Nat.eqb_eq.
Qed.

Lemma mat_eta (A : mat) :
  {| n_rows := n_rows A; n_cols := n_cols A; mem := mem A |} = A.
Proof. now destruct A. Qed.

Lemma map2_length (f : elem -> elem -> elem) (xs ys : list elem) :
  length xs = length ys -> length (map2 f xs ys) = length xs.
Proof.
  revert ys. induction xs as [|x xs IH]; intros [|y ys] Hlen; simpl in *;
    try discriminate; auto.
Qed.

Lemma map2_nth (f : elem -> elem -> elem) (xs ys : list elem) (k : nat) (d : elem) :
  length xs = length ys -> k < length xs ->
  nth k (map2 f xs ys) d = f (nth k xs d) (nth k ys d).
Proof.
  revert ys k. induction xs as [|x xs IH]; intros [|y ys] k Hlen Hk; simpl in *;
    try discriminate; try lia.
  destruct k as [|k]; [reflexivity|].
  apply IH; lia.
Qed.

(** An elementwise operation whose right operand is neutral everywhere. *)
Lemma map2_neutral_r (f : elem -> elem -> elem) (u : elem) (xs ys : list elem) :
  (forall x, f x u = x) ->
  length xs = length ys ->
  Forall (fun y => y = u) ys ->
  map2 f xs ys = xs.
Proof.
  intros Hf. revert ys.
  induction xs as [|x xs IH]; intros [|y ys] Hlen Hall; simpl in *;
    try discriminate; auto.
  inversion Hall; subst. rewrite Hf. f_equal. apply IH; auto.
Qed.

Lemma map_neutral (f : elem -> elem) (xs : list elem) :
  (forall x, f x = x) -> map f xs = xs.
Proof.
  intros Hf. induction xs as [|x xs IH]; simpl; [reflexivity|].
  now rewrite Hf, IH.
Qed.

Lemma cols_all (A : mat) :
  wf A -> cols A 0 (n_cols A) = Ok A.
Proof.
  unfold wf, n_elem, cols. intros Hwf. simpl.
  rewrite Nat.leb_refl. simpl.
  rewrite firstn_all2 by (rewrite Hwf; lia).
  f_equal. apply mat_eta.
Qed.

End MatFacts.

(** ** Dropout *)

Section DropoutFacts.
Context {E : ElemType}.

Lemma keep_bernoulli (r v : elem) :
  Dropout.keep r v = e1 /\ egt v r = true \/
  Dropout.keep r v = e0 /\ egt v r = false.
Proof.
  unfold Dropout.keep. destruct (egt v r); auto.
Qed.

Lemma Construct_scale (r : elem) :
  Dropout.scale (Dropout.Construct r) = ediv e1 (esub e1 r).
Proof. reflexivity. Qed.

Lemma schur_masked (A mask : mat) (s : elem) :
  same_size A mask = true ->
  match schur A mask with
  | Ok m => Ok (times_scalar m s)
  | Err e => Err e
  end = Ok (masked_scaled A mask s).
Proof.
  intros Hs. unfold schur, elementwise. now rewrite Hs.
Qed.

(** C4. For a Dropout layer in evaluation mode ([training] false), Forward
    is the identity on every input: the output is the input, the layer is
    left as it was (its mask included) and the generator is not advanced, so
    no mask is drawn. *)
Theorem Dropout_Forward_evaluation_identity
  (d : Dropout.DropoutType) (input : mat) (g : rng) :
  Dropout.training d = false ->
  Dropout.Forward d input g = Ok ((d, input), g).
Proof.
  intros Heval. unfold Dropout.Forward. now rewrite Heval.
Qed.

(** C5. For a Dropout layer in training mode whose scale is 1 / (1 - ratio),
    as the constructor sets it, Forward on [input] draws one value per entry,
    stores the mask of ones (draw > ratio) and zeros in the layer and returns
    input % mask * scale; Backward on the layer that Forward left, applied to
    an upstream error [gy] of the input's size, returns gy % mask * scale
    with that same stored mask and the same scale 1 / (1 - ratio). *)
Theorem Dropout_Backward_same_mask_and_scale
  (d : Dropout.DropoutType) (input gy : mat) (g : rng) :
  Dropout.training d = true ->
  Dropout.scale d = ediv e1 (esub e1 (Dropout.ratio d)) ->
  same_size gy input = true ->
  let mask := transform (Dropout.keep (Dropout.ratio d))
                        (drawn (n_rows input) (n_cols input) g) in
  let s := ediv e1 (esub e1 (Dropout.ratio d)) in
  let d' := Dropout.set_mask d mask in
  Forall (fun m => m = e1 \/ m = e0) (mem mask) /\
  Dropout.Forward d input g
    = Ok ((d', masked_scaled input mask s), advance (n_elem input) g) /\
  Dropout.mask d' = mask /\
  Dropout.Backward d' input gy = Ok (masked_scaled gy mask s).
Proof.
  intros Htrain Hscale Hsize mask s d'.
  assert (Hmask : same_size input mask = true)
    by (unfold same_size; simpl; now rewrite !Nat.eqb_refl).
  split; [|split; [|split]].
  - subst mask. simpl. apply Forall_forall. intros m Hm.
    apply in_map_iff in Hm as [v [<- _]].
    destruct (keep_bernoulli (Dropout.ratio d) v) as [[-> _]|[-> _]]; auto.
  - unfold Dropout.Forward. rewrite Htrain. simpl.
    unfold bind, randu, lift_result, ret. fold mask.
    unfold schur, elementwise. rewrite Hmask.
    rewrite Hscale. reflexivity.
  - reflexivity.
  - unfold Dropout.Backward. rewrite schur_masked.
    + simpl. now rewrite Hscale.
    + apply same_size_eq in Hsize as [Hr Hc].
      unfold same_size. simpl. rewrite Hr, Hc, !Nat.eqb_refl. reflexivity.
Qed.

End DropoutFacts.

Lemma Dropout_Forward_evaluation_identity_witness :
  Dropout.Forward Sample.dropout Sample.input Sample.generator
  = Ok ((Sample.dropout, Sample.input), Sample.generator).
Proof.
  apply Dropout_Forward_evaluation_identity. reflexivity.
Defined.

Lemma Dropout_Backward_same_mask_and_scale_witness :
  let d := Dropout.SetTraining Sample.dropout true in
  let mask := @Build_mat double 3 2 [1; 0; 0; 0; 1; 1]%float in
  Dropout.Forward d Sample.input Sample.generator
  = Ok ((Dropout.set_mask d mask,
         @Build_mat double 3 2 [2; 0; 0; 0; 10; 12]%float),
        advance 6 Sample.generator) /\
  Dropout.Backward (Dropout.set_mask d mask) Sample.input Sample.upstream
  = Ok (@Build_mat double 3 2 [16; 0; 0; 0; 80; 96]%float).
Proof.
  pose proof (Dropout_Backward_same_mask_and_scale
                (Dropout.SetTraining Sample.dropout true)
                Sample.input Sample.upstream Sample.generator
                eq_refl eq_refl eq_refl) as H.
  cbv zeta in H. destruct H as (_ & Hf & _ & Hb).
  split; [exact Hf | exact Hb].
Defined.

(** ** AlphaDropout *)

Lemma exact_arithmetic : ExactArithmetic rational.
Proof.
  split; simpl.
  - apply Qcmult_1_r.
  - apply Qcmult_0_r.
  - apply Qcplus_0_r.
  - apply Qcplus_opp_r.
Qed.


Section AlphaDropoutFacts.
Context {E : ElemType}.

Lemma AlphaDropout_Forward_stochastic (l : AlphaDropout.AlphaDropoutType)
      (input : mat) (g : rng) :
  AlphaDropout.deterministic l = false ->
  let mask := transform (Dropout.keep (AlphaDropout.ratio l))
                        (drawn (n_rows input) (n_cols input) g) in
  AlphaDropout.Forward l input g
  = Ok ((AlphaDropout.set_mask l mask,
         alpha_dropped input mask (AlphaDropout.alphaDash l)
                       (AlphaDropout.a l) (AlphaDropout.b l)),
        advance (n_elem input) g).
Proof.
  intros Hdet mask. unfold AlphaDropout.Forward. rewrite Hdet.
  unfold bind, randu, lift_result, ret. fold mask.
  unfold schur, plus, elementwise.
  assert (Hm : same_size input mask = true)
    by (unfold same_size; simpl; now rewrite !Nat.eqb_refl).
  rewrite Hm. unfold same_size. simpl. rewrite !Nat.eqb_refl. reflexivity.
Qed.

(** With ratio 0 every strictly positive draw is kept. *)
Lemma keep_all (g : rng) (n : nat) :
  (forall i, i < n -> egt (stream g (pos g + i)) e0 = true) ->
  map (Dropout.keep e0) (map (fun i => stream g (pos g + i)) (seq 0 n))
  = repeat e1 n.
Proof.
  intros Hpos. rewrite map_map.
  assert (H : forall k m, (forall i, k <= i < k + m ->
                                     egt (stream g (pos g + i)) e0 = true) ->
              map (fun i => Dropout.keep e0 (stream g (pos g + i))) (seq k m)
              = repeat e1 m).
  { intros k m. revert k. induction m as [|m IH]; intros k Hk; simpl; [reflexivity|].
    unfold Dropout.keep at 1. rewrite Hk by lia. f_equal.
    apply IH. intros i Hi. apply Hk. lia. }
  apply H. intros i Hi. apply Hpos. lia.
Qed.

Lemma Forall_repeat (x : elem) (n : nat) : Forall (fun y => y = x) (repeat x n).
Proof.
  induction n as [|n IH]; simpl; constructor; auto.
Qed.

(** Over an element type whose arithmetic is exact (the rationals; not
    [double]), for an AlphaDropout layer constructed with ratio 0 whose
    construction fixes the coefficients a = 1 and b = 0, Forward in the
    non-deterministic mode returns the input itself for every well-formed
    input matrix, provided every value drawn for the mask is strictly greater
    than 0; the mask it stores is all ones. *)
Theorem AlphaDropout_ratio_zero_identity
  (coefficients : elem -> elem -> elem * elem) (alphaDash : elem)
  (input : mat) (g : rng) :
  ExactArithmetic E ->
  coefficients e0 alphaDash = (e1, e0) ->
  wf input ->
  (forall i, i < n_elem input -> egt (stream g (pos g + i)) e0 = true) ->
  let l := AlphaDropout.Construct coefficients e0 alphaDash in
  AlphaDropout.Forward l input g
  = Ok ((AlphaDropout.set_mask l (ones (n_rows input) (n_cols input)), input),
        advance (n_elem input) g).
Proof.
  intros [Hm1 Hm0 Ha0 Hs1] Hab Hwf Hpos l.
  rewrite AlphaDropout_Forward_stochastic by reflexivity.
  cbv zeta.
  assert (Hmask : transform (Dropout.keep (AlphaDropout.ratio l))
                            (drawn (n_rows input) (n_cols input) g)
                  = ones (n_rows input) (n_cols input)).
  { unfold transform, drawn, ones. simpl. f_equal. now apply keep_all. }
  rewrite Hmask.
  assert (Hout : alpha_dropped input (ones (n_rows input) (n_cols input))
                   (AlphaDropout.alphaDash l) (AlphaDropout.a l) (AlphaDropout.b l)
                 = input).
  { unfold alpha_dropped. simpl. rewrite Hab. simpl.
    pose proof (Forall_repeat e1 (n_rows input * n_cols input)) as Hones.
    rewrite (map2_neutral_r emul e1 (mem input)); auto;
      [| now rewrite repeat_length].
    rewrite (map2_neutral_r eadd e0 (mem input)); auto.
    - rewrite (map_neutral (fun v => emul v e1)) by auto.
      rewrite (map_neutral (fun v => eadd v e0)) by auto.
      apply mat_eta.
    - now rewrite !length_map, repeat_length.
    - rewrite map_map. apply Forall_forall. intros y Hy.
      apply in_map_iff in Hy as [v [<- Hv]].
      apply repeat_spec in Hv. subst v. now rewrite Hs1, Hm0. }
  now rewrite Hout.
Qed.

(** C8, amended. A freshly constructed Dropout layer is in evaluation mode:
    its training flag is false and Forward is the identity, drawing nothing.
    A freshly constructed AlphaDropout layer is not: Forward is gated on the
    layer's own flag [deterministic], which the constructor sets to false, so
    whatever the training flag is set to, Forward draws a mask and returns
    (input % mask + alphaDash * (1 - mask)) * a + b; it is the identity once
    [deterministic] is set to true. *)
Theorem fresh_layer_modes
  (coefficients : elem -> elem -> elem * elem) (r ratio alphaDash : elem)
  (t : bool) (input : mat) (g : rng) :
  let d := Dropout.Construct r in
  let l := AlphaDropout.Construct coefficients ratio alphaDash in
  let mask := transform (Dropout.keep ratio)
                        (drawn (n_rows input) (n_cols input) g) in
  (Dropout.training d = false /\
   Dropout.Forward d input g = Ok ((d, input), g)) /\
  (AlphaDropout.deterministic l = false /\
   AlphaDropout.Forward (AlphaDropout.SetTraining l t) input g
   = Ok ((AlphaDropout.set_mask (AlphaDropout.SetTraining l t) mask,
          alpha_dropped input mask alphaDash
                        (AlphaDropout.a l) (AlphaDropout.b l)),
         advance (n_elem input) g)) /\
  AlphaDropout.Forward (AlphaDropout.SetDeterministic l true) input g
  = Ok ((AlphaDropout.SetDeterministic l true, input), g).
Proof.
  intros d l mask. split; [|split].
  - split; reflexivity.
  - split; [reflexivity|].
    now rewrite AlphaDropout_Forward_stochastic.
  - reflexivity.
Qed.

End AlphaDropoutFacts.

Lemma AlphaDropout_ratio_zero_identity_witness :
  let one_zero := fun _ _ : Qc => (Q2Qc 1, Q2Qc 0) in
  let l := @AlphaDropout.Construct rational one_zero (Q2Qc 0) (Q2Qc (3 # 2)) in
  AlphaDropout.Forward l Sample.exact_input Sample.exact_generator
  = Ok ((AlphaDropout.set_mask l (ones 3 2), Sample.exact_input),
        advance 6 Sample.exact_generator).
Proof.
  apply (@AlphaDropout_ratio_zero_identity rational
           (fun _ _ => (Q2Qc 1, Q2Qc 0)) (Q2Qc (3 # 2))
           Sample.exact_input Sample.exact_generator).
  - exact exact_arithmetic.
  - reflexivity.
  - reflexivity.
  - intros i _. reflexivity.
Defined.


(** C8, as stated, fails for AlphaDropout. Right after construction Forward
    is not what it is in evaluation mode (the input returned, the layer and
    the generator untouched): on the sample input it draws six values and
    stores a mask, whatever the coefficients are. *)
Lemma AlphaDropout_fresh_not_evaluation :
  ~ (exists coefficients : float -> float -> float * float,
        let l := @AlphaDropout.Construct double coefficients 0.5%float 1.5%float in
        AlphaDropout.Forward l Sample.input Sample.generator
        = Ok ((l, Sample.input), Sample.generator)).
Proof.
  intros [cf H]. cbv zeta in H.
  rewrite AlphaDropout_Forward_stochastic in H by reflexivity.
  cbv zeta in H.
  apply (f_equal (fun r => match r with
                           | Ok (_, g') => pos g'
                           | Err _ => 0
                           end)) in H.
  vm_compute in H. discriminate H.
Qed.

(** Over [double], with ratio 0, a = 1 and b = 0, the sample input comes
    back unchanged on the sample draws, which are all positive. *)
Example AlphaDropout_ratio_zero_sample :
  let l := @AlphaDropout.Construct double (fun _ _ => (1, 0)%float)
                                   0%float 1.5%float in
  AlphaDropout.Forward l Sample.input Sample.generator
  = Ok ((AlphaDropout.set_mask l (ones 3 2), Sample.input),
        advance 6 Sample.generator).
Proof. reflexivity. Qed.

(** On the sample input, a fresh AlphaDropout layer with a = 1 and b = 0
    replaces the three units whose draw is not above the ratio. *)
Example AlphaDropout_fresh_sample :
  let l := @AlphaDropout.Construct double (fun _ _ => (1, 0)%float)
                                   0.5%float 1.5%float in
  AlphaDropout.Forward l Sample.input Sample.generator
  = Ok ((AlphaDropout.set_mask l (@Build_mat double 3 2 [1; 0; 0; 0; 1; 1]%float),
         @Build_mat double 3 2 [1; 1.5; 1.5; 1.5; 5; 6]%float),
        advance 6 Sample.generator).
Proof. reflexivity. Qed.

(** ** AddMerge *)

Section AddMergeFacts.
Context {E : ElemType} {L : Type} {LL : Layer.Layer L}.

Import AddMerge.

Local Abbreviation Child := (@AddMerge.Child E L).
Local Abbreviation AddMergeType := (@AddMerge.AddMergeType E L).
Local Abbreviation world := (@AddMerge.world E).

Lemma plus_fits (A B : mat) :
  wf A -> fits A B ->
  exists C, plus A B = Ok C /\ same_size A C = true /\ wf C /\
            forall k, k < n_elem C -> at_ C k = eadd (at_ A k) (at_ B k).
Proof.
  intros HA [Hs HB]. unfold plus, elementwise. rewrite Hs.
  destruct (same_size_eq _ _ Hs) as [Hr Hc].
  assert (Hlen : length (mem A) = length (mem B))
    by (unfold wf, n_elem in *; congruence).
  eexists. split; [reflexivity|]. split; [|split].
  - unfold same_size. simpl. now rewrite !Nat.eqb_refl.
  - unfold wf, n_elem in *. simpl. now rewrite map2_length.
  - intros k Hk. unfold at_, n_elem in *. simpl in *.
    apply map2_nth; [assumption|]. unfold wf, n_elem in HA. lia.
Qed.

Lemma fits_trans (A B C : mat) :
  same_size A B = true -> fits A C -> fits B C.
Proof.
  intros HAB [HAC HC]. split; [|assumption].
  destruct (same_size_eq _ _ HAB) as [Hr Hc].
  destruct (same_size_eq _ _ HAC) as [Hr' Hc'].
  unfold same_size. rewrite <- Hr, <- Hc, Hr', Hc', !Nat.eqb_refl. reflexivity.
Qed.

(** The loop [output += ...] adds, entry by entry, in the order of the
    children. *)
Lemma accumulate_sum (buffer : Child -> mat) (cs : list Child) (output : mat) :
  wf output ->
  Forall (fun c => fits output (buffer c)) cs ->
  exists total,
    accumulate buffer output cs = Ok total /\
    same_size output total = true /\ wf total /\
    forall k, k < n_elem total ->
      at_ total k = entry_sum output (map buffer cs) k.
Proof.
  revert output. induction cs as [|c cs IH]; intros output Hwf Hall; simpl.
  - exists output. split; [reflexivity|]. split; [apply same_size_refl|].
    split; [assumption|]. reflexivity.
  - inversion Hall as [|? ? Hc Hcs]; subst.
    destruct (plus_fits output (buffer c) Hwf Hc) as (out' & Hplus & Hs & Hwf' & Hat).
    rewrite Hplus.
    destruct (IH out' Hwf') as (total & Hacc & Hs' & Hwft & Hsum).
    { eapply Forall_impl; [|exact Hcs]. intros c' Hc'.
      now apply (fits_trans output). }
    exists total. split; [assumption|]. split; [|split; [assumption|]].
    + destruct (same_size_eq _ _ Hs) as [Hr1 Hc1].
      destruct (same_size_eq _ _ Hs') as [Hr2 Hc2].
      unfold same_size. rewrite Hr1, Hc1, Hr2, Hc2, !Nat.eqb_refl. reflexivity.
    + intros k Hk. rewrite (Hsum k Hk). unfold entry_sum. simpl.
      rewrite Hat; [reflexivity|].
      destruct (same_size_eq _ _ Hs') as [Hr2 Hc2].
      unfold n_elem in *. now rewrite Hr2, Hc2.
Qed.

(** After the loop that runs the children forward, every child holds the
    output of its own Forward on the input. *)
Lemma for_each_forward_holds (input : mat) (cs cs' : list Child)
      (i : nat) (w w' : world) :
  for_each (fun i c => invoke (CallForward i) (child_Forward c input)) i cs w
  = Ok (cs', w') ->
  Forall (holds_output_on input) cs'.
Proof.
  revert cs' i w w'. induction cs as [|c cs IH]; intros cs' i w w' H; simpl in H.
  - unfold ret in H. injection H as <- _. constructor.
  - unfold bind in H.
    destruct (invoke (CallForward i) (child_Forward c input) w)
      as [[c1 w1]|e] eqn:Hinv; [|discriminate].
    destruct (for_each _ (S i) cs w1) as [[cs1 w2]|e] eqn:Hrest; [|discriminate].
    unfold ret in H. injection H as <- _.
    constructor; [|eapply IH; eassumption].
    unfold invoke, child_Forward, bind, ret in Hinv.
    destruct (Layer.Forward (layer c) input (gen w)) as [[[l' out] g']|e] eqn:Hf;
      [|discriminate].
    injection Hinv as <- _.
    exists (layer c), (gen w), g'. exact Hf.
Qed.

(** Every call that the loop over the children makes is recorded, in order. *)
Lemma for_each_calls {A : Type} (mk : nat -> call) (f : Child -> St rng Child)
      (cs cs' : list Child) (i : nat) (w w' : world) :
  for_each (fun i c => invoke (mk i) (f c)) i cs w = Ok (cs', w') ->
  calls w' = calls w ++ map mk (seq i (length cs)).
Proof.
  revert cs' i w w'. induction cs as [|c cs IH]; intros cs' i w w' H; simpl in H.
  - unfold ret in H. injection H as _ <-. simpl. now rewrite app_nil_r.
  - unfold bind in H.
    destruct (invoke (mk i) (f c) w) as [[c1 w1]|e] eqn:Hinv; [|discriminate].
    destruct (for_each _ (S i) cs w1) as [[cs1 w2]|e] eqn:Hrest; [|discriminate].
    unfold ret in H. injection H as _ <-.
    rewrite (IH _ _ _ _ Hrest).
    unfold invoke in Hinv. destruct (f c (gen w)) as [[x g']|e]; [|discriminate].
    injection Hinv as _ <-. simpl. now rewrite <- app_assoc.
Qed.

(** With the run flag set, Backward calls every child's Backward once, in
    the order of the children. *)
Lemma AddMerge_Backward_run_calls (am : AddMergeType) (input gy : mat)
      (w w' : world) (r : AddMergeType * mat) :
  run am = true ->
  Backward am input gy w = Ok (r, w') ->
  calls w' = calls w ++ map CallBackward (seq 0 (length (network am))).
Proof.
  intros Hrun H. unfold Backward in H. rewrite Hrun in H. unfold bind in H.
  destruct (for_each _ 0 (network am) w) as [[cs w1]|e] eqn:Hloop; [|discriminate].
  unfold lift_result, ret in H. destruct (merge Delta cs); [|discriminate].
  injection H as _ <-.
  exact (for_each_calls (A:=unit) CallBackward (fun c => child_Backward c gy)
           _ _ _ _ _ Hloop).
Qed.

(** C7. For an AddMerge layer with at least one child, once the children
    have been run forward on the input (by Forward itself when the run flag
    is set, beforehand otherwise) and their outputs are well formed and of
    one size, Forward returns the elementwise sum of the children's outputs
    on that input: it has their size, and each entry is the sum of the
    children's entries at that place, the first child first. *)
Theorem AddMerge_Forward_sum
  (am : AddMergeType) (input : mat) (w w' : world)
  (c : Child) (cs : list Child) :
  forward_children am input w = Ok (c :: cs, w') ->
  (run am = false -> Forall (holds_output_on input) (network am)) ->
  wf (OutputParameter c) ->
  Forall (fun c' => fits (OutputParameter c) (OutputParameter c')) cs ->
  exists output,
    Forward am input w = Ok ((set_network am (c :: cs), output), w') /\
    Forall (holds_output_on input) (c :: cs) /\
    same_size (OutputParameter c) output = true /\
    wf output /\
    forall k, k < n_elem output ->
      at_ output k = entry_sum (OutputParameter c) (map OutputParameter cs) k.
Proof.
  intros Hchildren Hheld Hwf Hfits.
  destruct (accumulate_sum OutputParameter cs (OutputParameter c) Hwf Hfits)
    as (total & Hacc & Hs & Hwft & Hsum).
  exists total. split; [|split; [|split; [|split]]]; try assumption.
  - unfold Forward, bind. rewrite Hchildren.
    unfold lift_result, merge. rewrite Hacc. reflexivity.
  - unfold forward_children in Hchildren.
    destruct (run am) eqn:Hrun.
    + eapply for_each_forward_holds; eassumption.
    + unfold ret in Hchildren. injection Hchildren as Hnet _.
      rewrite <- Hnet. now apply Hheld.
Qed.

(** C10. For an AddMerge layer whose run flag is false, Backward returns the
    upstream error [gy] itself as the downstream error, and Gradient returns;
    in both, the layer and all its children are left as they were, the
    generator is not advanced and no call of a child's Backward or Gradient
    is recorded. *)
Theorem AddMerge_not_run_passes_through
  (am : AddMergeType) (input gy error : mat) (w : world) :
  run am = false ->
  Backward am input gy w = Ok ((am, gy), w) /\
  Gradient am input error w = Ok (am, w).
Proof.
  intros Hrun. unfold Backward, Gradient. rewrite Hrun. split; reflexivity.
Qed.

End AddMergeFacts.

Lemma AddMerge_Forward_sum_witness :
  exists am' output w',
    AddMerge.Forward (LL:=Dropout.layer)
                     (Sample.add_merge true) Sample.input Sample.start
    = Ok ((am', output), w') /\
    wf output /\
    AddMerge.calls w' = [AddMerge.CallForward 0; AddMerge.CallForward 1] /\
    mem output = [3; 2; 3; 4; 15; 18]%float.
Proof.
  edestruct (@AddMerge_Forward_sum double _ Dropout.layer
               (Sample.add_merge true) Sample.input Sample.start)
    as (output & HF & _ & _ & Hwf & Hsum).
  - reflexivity.
  - intros H. discriminate H.
  - reflexivity.
  - repeat constructor.
  - exists (AddMerge.set_network (Sample.add_merge true)
              [AddMerge.Build_Child Sample.dropout Sample.input empty empty;
               AddMerge.Build_Child
                 (Dropout.set_mask (Dropout.SetTraining Sample.dropout true)
                    (@Build_mat double 3 2 [1; 0; 0; 0; 1; 1]%float))
                 (@Build_mat double 3 2 [2; 0; 0; 0; 10; 12]%float)
                 empty empty]),
           output,
           (@AddMerge.Build_world double (advance 6 Sample.generator)
              [AddMerge.CallForward 0; AddMerge.CallForward 1]).
    split; [exact HF|]. split; [exact Hwf|]. split; [reflexivity|].
    injection HF as HF. rewrite <- HF. reflexivity.
Defined.

Lemma AddMerge_not_run_passes_through_witness :
  AddMerge.Backward (LL:=Dropout.layer)
                    (Sample.add_merge false) Sample.input Sample.upstream
                    Sample.start
  = Ok ((Sample.add_merge false, Sample.upstream), Sample.start) /\
  AddMerge.Gradient (LL:=Dropout.layer)
                    (Sample.add_merge false) Sample.input Sample.upstream
                    Sample.start
  = Ok (Sample.add_merge false, Sample.start).
Proof.
  apply AddMerge_not_run_passes_through. reflexivity.
Defined.

(** With the run flag set, Backward calls both children's Backward and adds
    up their deltas. *)
Example AddMerge_run_Backward_sample :
  let mask := @Build_mat double 3 2 [1; 0; 0; 0; 1; 1]%float in
  let trained := Dropout.set_mask (Dropout.SetTraining Sample.dropout true) mask in
  let c := AddMerge.Build_Child trained Sample.input empty empty in
  let delta := @Build_mat double 3 2 [16; 0; 0; 0; 80; 96]%float in
  let c' := AddMerge.Build_Child trained Sample.input delta empty in
  AddMerge.Backward (LL:=Dropout.layer)
    (AddMerge.set_network (Sample.add_merge true) [c; c])
    Sample.input Sample.upstream Sample.start
  = Ok ((AddMerge.set_network (Sample.add_merge true) [c'; c'],
         @Build_mat double 3 2 [32; 0; 0; 0; 160; 192]%float),
        @AddMerge.Build_world double Sample.generator
          [AddMerge.CallBackward 0; AddMerge.CallBackward 1]).
Proof. reflexivity. Qed.

(** ** Linear *)

Section LinearFacts.
Context {E : ElemType}.

Import Linear.

Lemma accumulate_small (dims : list Z) (init : Z) :
  Forall (fun x => 0 <= x)%Z dims ->
  (0 <= init)%Z ->
  (init + fold_right Z.add 0 dims < 2 ^ 31)%Z ->
  accumulate dims init = (init + fold_right Z.add 0 dims)%Z.
Proof.
  unfold accumulate. revert init.
  induction dims as [|x dims IH]; intros init Hpos Hinit Hsum; simpl in *.
  - lia.
  - inversion Hpos as [|? ? Hx Hdims]; subst.
    assert (Hnonneg : (0 <= fold_right Z.add 0 dims)%Z).
    { clear -Hdims. induction Hdims; simpl; lia. }
    assert (Hstep : to_int (to_size_t (to_size_t init + x)) = (init + x)%Z).
    { unfold to_int, to_size_t.
      rewrite (Z.mod_small init) by lia.
      rewrite (Z.mod_small (init + x)) by lia.
      rewrite Z.mod_small by lia. lia. }
    rewrite Hstep. rewrite IH by (auto; lia). lia.
Qed.

(** As long as no overflow occurs, the input size that
    ComputeOutputDimensions stores is the sum of the extents. *)
Lemma ComputeOutputDimensions_inSize_sum (l l' : LinearType) :
  Forall (fun x => 0 <= x)%Z (inputDimensions l) ->
  (fold_right Z.add 0 (inputDimensions l) < 2 ^ 31)%Z ->
  ComputeOutputDimensions l = Ok l' ->
  inSize l' = fold_right Z.add 0%Z (inputDimensions l).
Proof.
  intros Hpos Hsum H. unfold ComputeOutputDimensions in H.
  destruct (repeat 1%Z (length (inputDimensions l))); [discriminate|].
  injection H as <-. simpl.
  rewrite accumulate_small by (auto; lia).
  assert (Hnonneg : (0 <= fold_right Z.add 0 (inputDimensions l))%Z).
  { clear -Hpos. induction Hpos; simpl; lia. }
  unfold to_size_t. rewrite Z.mod_small; lia.
Qed.

(** C1, at the input descriptor (3, 2). ComputeOutputDimensions stores
    3 + 2 = 5 as the layer's input size, while the descriptor implies
    3 * 2 = 6 elements; the output descriptor is (outSize, 1) and the weight
    count follows the stored input size. *)
Theorem Linear_ComputeOutputDimensions_adds_extents (l : LinearType) :
  exists l',
    ComputeOutputDimensions (set_inputDimensions l [3; 2]%Z) = Ok l' /\
    inSize l' = 5%Z /\
    spec_element_count (inputDimensions l') = 6%Z /\
    outputDimensions l' = [outSize l; 1%Z] /\
    WeightSize l' = to_size_t (to_size_t (5 * outSize l) + outSize l).
Proof.
  eexists. split; [reflexivity|]. repeat split.
Qed.

End LinearFacts.

(** ** The network *)

Section FFNFacts.
Context {E : ElemType} {OutputLayerType InitializationRuleType LayerType : Type}.

Import FFN.

Local Abbreviation FFN :=
  (@FFN.FFN E OutputLayerType InitializationRuleType LayerType).

(** C3. The mutable getter InputDimensions() returns the stored dimensions
    and leaves every member of the network as it was, the flag
    [inputDimensionsAreSet] included; an assignment through the reference it
    returns changes the stored dimensions and still leaves the flag as it
    was. So on a network whose dimensions are resolved the flag stays true
    after the call and after the change. *)
Theorem FFN_InputDimensions_leaves_flag (net : FFN) (dims : list Z) :
  InputDimensions net = (inputDimensions net, net) /\
  inputDimensions (InputDimensions_assign (snd (InputDimensions net)) dims)
  = dims /\
  inputDimensionsAreSet (InputDimensions_assign (snd (InputDimensions net)) dims)
  = inputDimensionsAreSet net.
Proof.
  repeat split.
Qed.

(** C9. Add(layer) puts the layer at the end of the execution order: the
    layers already there keep their positions and the new one follows them.
    It gives the new layer an empty output, delta and gradient matrix, sets
    [inputDimensionsAreSet] to false and changes no other member,
    [layerMemoryIsSet] included. Whatever state the network was in, it is
    Uninitialized afterwards: the validation before the next Forward,
    Backward or Gradient re-derives the dimensions and then the memory
    aliasing, and leaves both flags set and the layers as Add left them. *)
Theorem FFN_Add_appends_and_invalidates (net : FFN) (layer : LayerType) :
  (network (Add net layer) = network net ++ [layer] /\
   (forall i, i < length (network net) ->
              nth_error (network (Add net layer)) i = nth_error (network net) i) /\
   nth_error (network (Add net layer)) (length (network net)) = Some layer) /\
  (inputDimensionsAreSet (Add net layer) = false /\
   layerMemoryIsSet (Add net layer) = layerMemoryIsSet net) /\
  (Uninitialized (Add net layer) /\
   fst (CheckNetwork (Add net layer)) = [Dimensions; MemoryAliasing] /\
   inputDimensionsAreSet (snd (CheckNetwork (Add net layer))) = true /\
   layerMemoryIsSet (snd (CheckNetwork (Add net layer))) = true /\
   network (snd (CheckNetwork (Add net layer))) = network net ++ [layer]) /\
  (layerOutputs (Add net layer) = layerOutputs net ++ [empty] /\
   layerDeltas (Add net layer) = layerDeltas net ++ [empty] /\
   layerGradients (Add net layer) = layerGradients net ++ [empty]) /\
  (outputLayer (Add net layer) = outputLayer net /\
   initializeRule (Add net layer) = initializeRule net /\
   parameters (Add net layer) = parameters net /\
   inputDimensions (Add net layer) = inputDimensions net /\
   predictors (Add net layer) = predictors net /\
   responses (Add net layer) = responses net /\
   error_ (Add net layer) = error_ net /\
   training (Add net layer) = training net /\
   totalInputSize (Add net layer) = totalInputSize net /\
   totalOutputSize (Add net layer) = totalOutputSize net /\
   layerOutputMatrix (Add net layer) = layerOutputMatrix net /\
   deltaMatrix (Add net layer) = deltaMatrix net).
Proof.
  split; [|split; [|split; [|split]]].
  - split; [reflexivity|]. split.
    + intros i Hi. simpl. now apply nth_error_app1.
    + simpl. rewrite nth_error_app2 by lia. now rewrite Nat.sub_diag.
  - split; reflexivity.
  - unfold Uninitialized, CheckNetwork. simpl. repeat split.
  - repeat split.
  - repeat split.
Qed.

(** C2. When the stored predictors and responses hold N data points each,
    the windowed Evaluate(parameters, 0, N) succeeds and returns the very
    value that the whole-dataset Evaluate(parameters) returns. *)
Theorem FFN_Evaluate_batch_whole_dataset
  (NetworkForward : FFN -> mat -> mat -> mat)
  (OutputLayerForward : OutputLayerType -> mat -> mat -> elem)
  (net : FFN) (parameters : mat) (N : nat) :
  wf (predictors net) ->
  wf (responses net) ->
  n_cols (predictors net) = N ->
  n_cols (responses net) = N ->
  Evaluate_batch NetworkForward OutputLayerForward net parameters 0 N
  = Ok (Evaluate NetworkForward OutputLayerForward net parameters).
Proof.
  intros Hp Hr HNp HNr. unfold Evaluate_batch, Evaluate.
  rewrite <- HNp at 1. rewrite <- HNr.
  now rewrite !cols_all.
Qed.

End FFNFacts.

(** On the sample network, whose dimensions are resolved and whose memory is
    aliased, the validation has nothing to re-derive; after Add of a layer,
    [layerMemoryIsSet] is still true and the validation re-derives both. *)
Example FFN_Add_sample :
  fst (FFN.CheckNetwork Sample.net) = [] /\
  FFN.layerMemoryIsSet (FFN.Add Sample.net 2) = true /\
  fst (FFN.CheckNetwork (FFN.Add Sample.net 2))
  = [FFN.Dimensions; FFN.MemoryAliasing].
Proof. repeat split. Qed.

(** On the sample network, whose dimensions are resolved, a call of the
    mutable getter leaves [inputDimensionsAreSet] true. *)
Lemma FFN_InputDimensions_keeps_flag :
  FFN.inputDimensionsAreSet (snd (FFN.InputDimensions Sample.net)) <> false.
Proof.
  simpl. discriminate.
Qed.

Lemma FFN_Evaluate_batch_whole_dataset_witness :
  let forward := fun (_ : @FFN.FFN double unit unit nat) (_ x : mat) => x in
  let loss := fun (_ : unit) (output target : mat (E:=double)) =>
                PrimFloat.sub (at_ output 0) (at_ target 0) in
  FFN.Evaluate_batch forward loss Sample.net empty 0 2
  = Ok (FFN.Evaluate forward loss Sample.net empty).
Proof.
  apply (@FFN_Evaluate_batch_whole_dataset double unit unit nat);
    reflexivity.
Defined.

(* ------------------------------------------------------------------ *)
(** * Further properties of the layers and the network *)

(** ** Lists and draws *)

Section ListFacts.
Context {E : ElemType}.

Lemma nth_map_lt (f : elem -> elem) (xs : list elem) (k : nat) (d d' : elem) :
  k < length xs -> nth k (map f xs) d = f (nth k xs d').
Proof.
  intros Hk. rewrite (nth_indep _ d (f d')) by now rewrite length_map.
  apply map_nth.
Qed.

Lemma drawn_wf (r c : nat) (g : rng) : wf (drawn r c g).
Proof.
  unfold wf, n_elem, drawn. simpl. now rewrite length_map, length_seq.
Qed.

Lemma drawn_at (r c : nat) (g : rng) (k : nat) :
  k < r * c -> at_ (drawn r c g) k = stream g (pos g + k).
Proof.
  intros Hk. unfold at_, drawn. simpl.
  rewrite (nth_indep _ e0 (stream g (pos g + 0)))
    by now rewrite length_map, length_seq.
  rewrite (map_nth (fun i => stream g (pos g + i)) (seq 0 (r * c)) 0 k).
  now rewrite seq_nth.
Qed.

Lemma transform_wf (f : elem -> elem) (A : mat) : wf A -> wf (transform f A).
Proof.
  unfold wf, n_elem, transform. simpl. now rewrite length_map.
Qed.

Lemma transform_at (f : elem -> elem) (A : mat) (k : nat) :
  wf A -> k < n_elem A -> at_ (transform f A) k = f (at_ A k).
Proof.
  unfold wf, at_, transform. simpl. intros Hwf Hk.
  apply nth_map_lt. now rewrite Hwf.
Qed.

Lemma masked_scaled_wf (A mask : mat) (s : elem) :
  wf A -> wf mask -> same_size A mask = true -> wf (masked_scaled A mask s).
Proof.
  unfold wf, n_elem, masked_scaled. simpl. intros HA HM Hs.
  destruct (same_size_eq _ _ Hs) as [Hr Hc].
  rewrite length_map, map2_length; [assumption|]. now rewrite HA, HM, Hr, Hc.
Qed.

Lemma masked_scaled_at (A mask : mat) (s : elem) (k : nat) :
  wf A -> wf mask -> same_size A mask = true -> k < n_elem A ->
  at_ (masked_scaled A mask s) k = emul (emul (at_ A k) (at_ mask k)) s.
Proof.
  unfold wf, n_elem, at_, masked_scaled. simpl. intros HA HM Hs Hk.
  destruct (same_size_eq _ _ Hs) as [Hr Hc].
  assert (Hlen : length (mem A) = length (mem mask)) by now rewrite HA, HM, Hr, Hc.
  rewrite (nth_map_lt _ _ _ e0 e0) by (rewrite map2_length; [lia|assumption]).
  rewrite map2_nth; [reflexivity|assumption|lia].
Qed.

End ListFacts.

(** ** Dropout: entries and sizes *)

Section DropoutMore.
Context {E : ElemType}.

(** What a training-mode Forward returns, whatever the stored scale is. *)
Lemma Dropout_Forward_training (d : Dropout.DropoutType) (input : mat) (g : rng) :
  Dropout.training d = true ->
  let mask := transform (Dropout.keep (Dropout.ratio d))
                        (drawn (n_rows input) (n_cols input) g) in
  Dropout.Forward d input g
  = Ok ((Dropout.set_mask d mask, masked_scaled input mask (Dropout.scale d)),
        advance (n_elem input) g).
Proof.
  intros Htrain mask. unfold Dropout.Forward. rewrite Htrain. simpl.
  unfold bind, randu, lift_result, ret. fold mask.
  unfold schur, elementwise.
  assert (Hmask : same_size input mask = true)
    by (unfold same_size; simpl; now rewrite !Nat.eqb_refl).
  now rewrite Hmask.
Qed.

(** X1. In training mode, Forward on a well-formed input returns a
    well-formed matrix of the input's size; the k-th draw decides the k-th
    unit alone: the mask entry is 1 when that draw is above the ratio and 0
    otherwise, and the output entry is the input entry times the mask entry
    times the scale. Exactly one value per entry is drawn. *)
Theorem Dropout_Forward_training_entries
  (d : Dropout.DropoutType) (input : mat) (g : rng) :
  Dropout.training d = true ->
  wf input ->
  exists d' output,
    Dropout.Forward d input g = Ok ((d', output), advance (n_elem input) g) /\
    same_size input output = true /\
    wf output /\
    same_size input (Dropout.mask d') = true /\
    wf (Dropout.mask d') /\
    forall k, k < n_elem input ->
      at_ (Dropout.mask d') k
      = (if egt (stream g (pos g + k)) (Dropout.ratio d) then e1 else e0) /\
      at_ output k
      = emul (emul (at_ input k) (at_ (Dropout.mask d') k)) (Dropout.scale d).
Proof.
  intros Htrain Hwf.
  pose proof (Dropout_Forward_training d input g Htrain) as HF. cbv zeta in HF.
  set (mask := transform (Dropout.keep (Dropout.ratio d))
                         (drawn (n_rows input) (n_cols input) g)) in *.
  assert (Hsize : same_size input mask = true)
    by (unfold same_size; simpl; now rewrite !Nat.eqb_refl).
  assert (Hmwf : wf mask) by (apply transform_wf, drawn_wf).
  exists (Dropout.set_mask d mask), (masked_scaled input mask (Dropout.scale d)).
  split; [exact HF|]. split; [|split; [|split; [|split]]].
  - unfold same_size. simpl. now rewrite !Nat.eqb_refl.
  - now apply masked_scaled_wf.
  - exact Hsize.
  - exact Hmwf.
  - intros k Hk. simpl. split.
    + unfold mask. rewrite transform_at; [|apply drawn_wf|exact Hk].
      now rewrite drawn_at by exact Hk.
    + now apply masked_scaled_at.
Qed.

(** X2. After a training-mode Forward on [input], Backward succeeds exactly
    on an upstream error of the input's size, and then returns a matrix of
    that size; on an upstream error of any other size it fails with
    incompatible dimensions. *)
Theorem Dropout_Backward_size
  (d : Dropout.DropoutType) (input gy : mat) (g : rng) :
  Dropout.training d = true ->
  exists d' output g',
    Dropout.Forward d input g = Ok ((d', output), g') /\
    (same_size gy input = true ->
     exists downstream,
       Dropout.Backward d' input gy = Ok downstream /\
       same_size gy downstream = true) /\
    (same_size gy input = false ->
     Dropout.Backward d' input gy = Err incompatible_dimensions).
Proof.
  intros Htrain.
  pose proof (Dropout_Forward_training d input g Htrain) as HF. cbv zeta in HF.
  set (mask := transform (Dropout.keep (Dropout.ratio d))
                         (drawn (n_rows input) (n_cols input) g)) in *.
  exists (Dropout.set_mask d mask), (masked_scaled input mask (Dropout.scale d)),
         (advance (n_elem input) g).
  split; [exact HF|].
  assert (Hsame : same_size gy mask = same_size gy input) by reflexivity.
  unfold Dropout.Backward, schur, elementwise. simpl. rewrite Hsame.
  split; intros Hs; rewrite Hs.
  - eexists. split; [reflexivity|].
    unfold same_size. simpl. now rewrite !Nat.eqb_refl.
  - reflexivity.
Qed.

(** X3. A layer in evaluation mode that has never run a training-mode
    Forward still holds the empty mask it was constructed with: Forward
    returns the input, and a Backward that follows it fails with incompatible
    dimensions on every upstream error that is not 0 x 0. *)
Theorem Dropout_Backward_after_evaluation_Forward
  (d : Dropout.DropoutType) (input gy : mat) (g : rng) :
  Dropout.training d = false ->
  Dropout.mask d = empty ->
  same_size gy empty = false ->
  Dropout.Forward d input g = Ok ((d, input), g) /\
  Dropout.Backward d input gy = Err incompatible_dimensions.
Proof.
  intros Heval Hmask Hsize. split.
  - unfold Dropout.Forward. now rewrite Heval.
  - unfold Dropout.Backward, schur, elementwise. now rewrite Hmask, Hsize.
Qed.

End DropoutMore.

Lemma Dropout_Forward_training_entries_witness :
  exists d' output,
    Dropout.Forward (Dropout.SetTraining Sample.dropout true)
                    Sample.input Sample.generator
    = Ok ((d', output), advance 6 Sample.generator) /\
    at_ (Dropout.mask d') 4 = 1%float /\
    at_ output 4 = 10%float.
Proof.
  destruct (Dropout_Forward_training_entries
              (Dropout.SetTraining Sample.dropout true)
              Sample.input Sample.generator eq_refl eq_refl)
    as (d' & output & HF & _ & _ & _ & _ & Hk).
  exists d', output. split; [exact HF|].
  destruct (Hk 4 ltac:(vm_compute; lia)) as [Hm Ho].
  split; [exact Hm|]. rewrite Ho, Hm. reflexivity.
Defined.

Lemma Dropout_Backward_size_witness :
  exists d' output g',
    Dropout.Forward (Dropout.SetTraining Sample.dropout true)
                    Sample.input Sample.generator
    = Ok ((d', output), g') /\
    (exists downstream, Dropout.Backward d' Sample.input Sample.upstream
                        = Ok downstream) /\
    Dropout.Backward d' Sample.input Sample.responses
    = Err incompatible_dimensions.
Proof.
  destruct (Dropout_Backward_size
              (Dropout.SetTraining Sample.dropout true)
              Sample.input Sample.upstream Sample.generator eq_refl)
    as (d' & output & g' & HF & Hok & _).
  destruct (Dropout_Backward_size
              (Dropout.SetTraining Sample.dropout true)
              Sample.input Sample.responses Sample.generator eq_refl)
    as (d2 & output2 & g2 & HF2 & _ & Herr).
  rewrite HF in HF2. injection HF2 as <- _ _.
  exists d', output, g'. split; [exact HF|]. split.
  - destruct (Hok eq_refl) as (downstream & Hb & _). now exists downstream.
  - exact (Herr eq_refl).
Defined.

Lemma Dropout_Backward_after_evaluation_Forward_witness :
  Dropout.Forward Sample.dropout Sample.input Sample.generator
  = Ok ((Sample.dropout, Sample.input), Sample.generator) /\
  Dropout.Backward Sample.dropout Sample.input Sample.upstream
  = Err incompatible_dimensions.
Proof.
  apply Dropout_Backward_after_evaluation_Forward; reflexivity.
Defined.

(** ** AlphaDropout: entries, Backward and the archive *)

Section AlphaDropoutMore.
Context {E : ElemType}.

Lemma alpha_dropped_at (input mask : mat) (alphaDash a b : elem) (k : nat) :
  wf input -> wf mask -> same_size input mask = true -> k < n_elem input ->
  at_ (alpha_dropped input mask alphaDash a b) k
  = eadd (emul (eadd (emul (at_ input k) (at_ mask k))
                     (emul alphaDash (esub e1 (at_ mask k))))
               a)
         b.
Proof.
  unfold wf, n_elem, at_, alpha_dropped. simpl. intros HA HM Hs Hk.
  destruct (same_size_eq _ _ Hs) as [Hr Hc].
  assert (Hlen : length (mem input) = length (mem mask))
    by now rewrite HA, HM, Hr, Hc.
  assert (Hlen2 : length (map2 emul (mem input) (mem mask))
                  = length (map (fun v => emul alphaDash v)
                                (map (fun v => esub e1 v) (mem mask))))
    by (rewrite map2_length, !length_map; assumption).
  assert (Hk2 : k < length (map2 emul (mem input) (mem mask)))
    by (rewrite map2_length; [lia|assumption]).
  rewrite (nth_map_lt _ _ _ e0 e0)
    by (rewrite length_map, map2_length; [lia|assumption]).
  rewrite (nth_map_lt _ _ _ e0 e0) by (rewrite map2_length; [lia|assumption]).
  rewrite map2_nth by assumption.
  rewrite map2_nth by (assumption || lia).
  rewrite (nth_map_lt _ _ _ e0 e0) by (rewrite length_map; lia).
  rewrite (nth_map_lt _ _ _ e0 e0) by lia.
  reflexivity.
Qed.

(** X4. In the non-deterministic mode, Forward on a well-formed input
    returns a matrix of the input's size; the k-th draw decides the k-th unit
    alone: a unit whose draw is above the ratio has mask entry 1, the others
    0, and the output entry is
    (x * m + alphaDash * (1 - m)) * a + b for the input entry x and the mask
    entry m. Exactly one value per entry is drawn. *)
Theorem AlphaDropout_Forward_entries
  (l : AlphaDropout.AlphaDropoutType) (input : mat) (g : rng) :
  AlphaDropout.deterministic l = false ->
  wf input ->
  exists l' output,
    AlphaDropout.Forward l input g = Ok ((l', output), advance (n_elem input) g) /\
    same_size input output = true /\
    same_size input (AlphaDropout.mask l') = true /\
    wf (AlphaDropout.mask l') /\
    forall k, k < n_elem input ->
      at_ (AlphaDropout.mask l') k
      = (if egt (stream g (pos g + k)) (AlphaDropout.ratio l) then e1 else e0) /\
      at_ output k
      = eadd (emul (eadd (emul (at_ input k) (at_ (AlphaDropout.mask l') k))
                         (emul (AlphaDropout.alphaDash l)
                               (esub e1 (at_ (AlphaDropout.mask l') k))))
                   (AlphaDropout.a l))
             (AlphaDropout.b l).
Proof.
  intros Hdet Hwf.
  pose proof (AlphaDropout_Forward_stochastic l input g Hdet) as HF.
  cbv zeta in HF.
  set (mask := transform (Dropout.keep (AlphaDropout.ratio l))
                         (drawn (n_rows input) (n_cols input) g)) in *.
  assert (Hsize : same_size input mask = true)
    by (unfold same_size; simpl; now rewrite !Nat.eqb_refl).
  assert (Hmwf : wf mask) by (apply transform_wf, drawn_wf).
  eexists _, _. split; [exact HF|]. split; [|split; [|split]].
  - unfold same_size. simpl. now rewrite !Nat.eqb_refl.
  - exact Hsize.
  - exact Hmwf.
  - intros k Hk. simpl. split.
    + unfold mask. rewrite transform_at; [|apply drawn_wf|exact Hk].
      now rewrite drawn_at by exact Hk.
    + now apply alpha_dropped_at.
Qed.

(** X5. After a non-deterministic Forward on [input], Backward on an
    upstream error of the input's size returns gy % mask * a with the mask
    that this Forward stored: entry k is the upstream entry times the mask
    entry times a, and b plays no part. On an upstream error of another size
    it fails with incompatible dimensions. *)
Theorem AlphaDropout_Backward_after_Forward
  (l : AlphaDropout.AlphaDropoutType) (input gy : mat) (g : rng) :
  AlphaDropout.deterministic l = false ->
  wf gy ->
  exists l' output g',
    AlphaDropout.Forward l input g = Ok ((l', output), g') /\
    (same_size gy input = true ->
     exists downstream,
       AlphaDropout.Backward l' input gy = Ok downstream /\
       same_size gy downstream = true /\
       forall k, k < n_elem gy ->
         at_ downstream k
         = emul (emul (at_ gy k) (at_ (AlphaDropout.mask l') k))
                (AlphaDropout.a l)) /\
    (same_size gy input = false ->
     AlphaDropout.Backward l' input gy = Err incompatible_dimensions).
Proof.
  intros Hdet Hwf.
  pose proof (AlphaDropout_Forward_stochastic l input g Hdet) as HF.
  cbv zeta in HF.
  set (mask := transform (Dropout.keep (AlphaDropout.ratio l))
                         (drawn (n_rows input) (n_cols input) g)) in *.
  eexists _, _, _. split; [exact HF|].
  assert (Hsame : same_size gy mask = same_size gy input) by reflexivity.
  assert (Hmwf : wf mask) by (apply transform_wf, drawn_wf).
  unfold AlphaDropout.Backward, schur, elementwise. simpl. rewrite Hsame.
  split; intros Hs; rewrite Hs; [|reflexivity].
  exists (masked_scaled gy mask (AlphaDropout.a l)).
  split; [reflexivity|]. split.
  - unfold same_size. simpl. now rewrite !Nat.eqb_refl.
  - intros k Hk. apply masked_scaled_at; auto; try (now rewrite Hsame).
Qed.

(** X6. Saving a layer and loading the archive into another object restores
    [ratio], [alphaDash], [a] and [b] and nothing else: the object keeps its
    own [deterministic] flag and mask. When the two layers agree on the flag,
    Forward of the restored layer returns, on every input and from every
    generator state, the output and the generator state that Forward of the
    saved layer returns. *)
Theorem AlphaDropout_serialize_round_trip
  (l target : AlphaDropout.AlphaDropoutType) (input : mat) (g : rng) :
  let restored :=
    AlphaDropout.serialize_load (AlphaDropout.serialize_save l) target in
  (AlphaDropout.ratio restored = AlphaDropout.ratio l /\
   AlphaDropout.alphaDash restored = AlphaDropout.alphaDash l /\
   AlphaDropout.a restored = AlphaDropout.a l /\
   AlphaDropout.b restored = AlphaDropout.b l) /\
  (AlphaDropout.deterministic restored = AlphaDropout.deterministic target /\
   AlphaDropout.mask restored = AlphaDropout.mask target) /\
  (AlphaDropout.deterministic target = AlphaDropout.deterministic l ->
   exists l1 l2 output g',
     AlphaDropout.Forward l input g = Ok ((l1, output), g') /\
     AlphaDropout.Forward restored input g = Ok ((l2, output), g')).
Proof.
  intros restored. split; [repeat split|]. split; [split; reflexivity|].
  intros Hflag. destruct (AlphaDropout.deterministic l) eqn:Hdet.
  - exists l, restored, input, g. split.
    + unfold AlphaDropout.Forward. now rewrite Hdet.
    + unfold AlphaDropout.Forward. simpl. now rewrite Hflag.
  - eexists _, _, _, _. split.
    + now apply AlphaDropout_Forward_stochastic.
    + rewrite AlphaDropout_Forward_stochastic by exact Hflag. reflexivity.
Qed.

End AlphaDropoutMore.

Lemma AlphaDropout_Forward_entries_witness :
  let l := @AlphaDropout.Construct double (fun _ _ => (1, 0)%float)
                                   0.5%float 1.5%float in
  exists l' output,
    AlphaDropout.Forward l Sample.input Sample.generator
    = Ok ((l', output), advance 6 Sample.generator) /\
    at_ (AlphaDropout.mask l') 1 = 0%float /\
    at_ output 1 = 1.5%float.
Proof.
  intros l.
  destruct (AlphaDropout_Forward_entries l Sample.input Sample.generator
              eq_refl eq_refl)
    as (l' & output & HF & _ & _ & _ & Hk).
  exists l', output. split; [exact HF|].
  destruct (Hk 1 ltac:(vm_compute; lia)) as [Hm Ho].
  split; [exact Hm|]. rewrite Ho, Hm. reflexivity.
Defined.

Lemma AlphaDropout_Backward_after_Forward_witness :
  let l := @AlphaDropout.Construct double (fun _ _ => (2, 0)%float)
                                   0.5%float 1.5%float in
  exists l' output g',
    AlphaDropout.Forward l Sample.input Sample.generator
    = Ok ((l', output), g') /\
    (exists downstream,
        AlphaDropout.Backward l' Sample.input Sample.upstream = Ok downstream /\
        at_ downstream 0 = 16%float /\ at_ downstream 1 = 0%float).
Proof.
  intros l.
  destruct (AlphaDropout_Backward_after_Forward l Sample.input Sample.upstream
              Sample.generator eq_refl eq_refl)
    as (l' & output & g' & HF & Hok & _).
  exists l', output, g'. split; [exact HF|].
  destruct (Hok eq_refl) as (downstream & Hb & _ & Hk).
  exists downstream. split; [exact Hb|].
  pose proof HF as HF'.
  rewrite AlphaDropout_Forward_stochastic in HF' by reflexivity.
  injection HF' as <- _ _.
  split; [rewrite (Hk 0) | rewrite (Hk 1)];
    try reflexivity; vm_compute; lia.
Defined.

Lemma AlphaDropout_serialize_round_trip_witness :
  let l := AlphaDropout.SetDeterministic
             (@AlphaDropout.Construct double (fun _ _ => (2, 0.25)%float)
                                      0.5%float 1.5%float) true in
  let fresh := @AlphaDropout.Construct double (fun _ _ => (1, 0)%float)
                                       0%float 0%float in
  let restored :=
    AlphaDropout.serialize_load (AlphaDropout.serialize_save l) fresh in
  AlphaDropout.a restored = 2%float /\
  AlphaDropout.deterministic restored = false /\
  exists l1 l2 output g',
    AlphaDropout.Forward l Sample.input Sample.generator
    = Ok ((l1, output), g') /\
    AlphaDropout.Forward
      (AlphaDropout.SetDeterministic restored true) Sample.input Sample.generator
    = Ok ((l2, output), g').
Proof.
  intros l fresh restored.
  split; [reflexivity|]. split; [reflexivity|].
  destruct (AlphaDropout_serialize_round_trip l
              (AlphaDropout.SetDeterministic fresh true)
              Sample.input Sample.generator) as (_ & _ & HF).
  exact (HF eq_refl).
Defined.

(** ** AddMerge: calls, frames, Backward and the indexed overloads *)

Section AddMergeMore.
Context {E : ElemType} {L : Type} {LL : Layer.Layer L}.

Import AddMerge.

Local Abbreviation Child := (@AddMerge.Child E L).
Local Abbreviation AddMergeType := (@AddMerge.AddMergeType E L).
Local Abbreviation world := (@AddMerge.world E).

Lemma set_network_same (am : AddMergeType) : set_network am (network am) = am.
Proof. now destruct am. Qed.

Lemma invoke_inv {A : Type} (c : call) (m : St rng A) (w w' : world) (x : A) :
  invoke c m w = Ok (x, w') ->
  m (gen w) = Ok (x, gen w') /\ calls w' = calls w ++ [c].
Proof.
  unfold invoke. destruct (m (gen w)) as [[y g']|e]; [|discriminate].
  intros H. injection H as <- <-. split; reflexivity.
Qed.

Lemma child_Forward_inv (c c' : Child) (input : mat) (g g' : rng) :
  child_Forward c input g = Ok (c', g') ->
  Layer.Forward (layer c) input g = Ok ((layer c', OutputParameter c'), g') /\
  Delta c' = Delta c /\ Gradient_ c' = Gradient_ c.
Proof.
  unfold child_Forward, bind, ret.
  destruct (Layer.Forward (layer c) input g) as [[[l' out] g1]|e]; [|discriminate].
  intros H. injection H as <- <-. repeat split.
Qed.

Lemma child_Backward_inv (c c' : Child) (gy : mat) (g g' : rng) :
  child_Backward c gy g = Ok (c', g') ->
  Layer.Backward (layer c) (OutputParameter c) gy g
  = Ok ((layer c', Delta c'), g') /\
  OutputParameter c' = OutputParameter c /\ Gradient_ c' = Gradient_ c.
Proof.
  unfold child_Backward, bind, ret.
  destruct (Layer.Backward (layer c) (OutputParameter c) gy g)
    as [[[l' out] g1]|e]; [|discriminate].
  intros H. injection H as <- <-. repeat split.
Qed.

Lemma child_Gradient_inv (c c' : Child) (input error : mat) (g g' : rng) :
  child_Gradient c input error g = Ok (c', g') ->
  Layer.Gradient (layer c) input error (Gradient_ c) g
  = Ok ((layer c', Gradient_ c'), g') /\
  OutputParameter c' = OutputParameter c /\ Delta c' = Delta c.
Proof.
  unfold child_Gradient, bind, ret.
  destruct (Layer.Gradient (layer c) input error (Gradient_ c) g)
    as [[[l' out] g1]|e]; [|discriminate].
  intros H. injection H as <- <-. repeat split.
Qed.

(** The loop over the children relates each child to the child it leaves at
    the same position, whenever every single step does. *)
Lemma for_each_Forall2 (f : nat -> Child -> St world Child)
      (R : Child -> Child -> Prop) :
  (forall i c w c' w', f i c w = Ok (c', w') -> R c c') ->
  forall cs cs' i w w',
    for_each f i cs w = Ok (cs', w') -> Forall2 R cs cs'.
Proof.
  intros Hstep. induction cs as [|c cs IH]; intros cs' i w w' H; simpl in H.
  - unfold ret in H. injection H as <- _. constructor.
  - unfold bind in H.
    destruct (f i c w) as [[c1 w1]|e] eqn:Hc; [|discriminate].
    destruct (for_each f (S i) cs w1) as [[cs1 w2]|e] eqn:Hrest; [|discriminate].
    unfold ret in H. injection H as <- _.
    constructor; [eapply Hstep; eassumption | eapply IH; eassumption].
Qed.

Lemma Forall2_length_eq {A B : Type} (R : A -> B -> Prop) (xs : list A) (ys : list B) :
  Forall2 R xs ys -> length ys = length xs.
Proof.
  induction 1; simpl; congruence.
Qed.

Lemma Forall2_map_eq {B : Type} (p : Child -> B) (cs cs' : list Child) :
  Forall2 (fun c c' => p c' = p c) cs cs' -> map p cs' = map p cs.
Proof.
  induction 1; simpl; congruence.
Qed.

(** The calls that the loops over all children record, for the three
    methods at once. *)
Lemma for_each_calls_any (mk : nat -> call) (f : Child -> St rng Child)
      (cs cs' : list Child) (i : nat) (w w' : world) :
  for_each (fun i c => invoke (mk i) (f c)) i cs w = Ok (cs', w') ->
  calls w' = calls w ++ map mk (seq i (length cs)).
Proof.
  revert cs' i w w'. induction cs as [|c cs IH]; intros cs' i w w' H; simpl in H.
  - unfold ret in H. injection H as _ <-. simpl. now rewrite app_nil_r.
  - unfold bind in H.
    destruct (invoke (mk i) (f c) w) as [[c1 w1]|e] eqn:Hinv; [|discriminate].
    destruct (for_each _ (S i) cs w1) as [[cs1 w2]|e] eqn:Hrest; [|discriminate].
    unfold ret in H. injection H as _ <-.
    rewrite (IH _ _ _ _ Hrest).
    apply invoke_inv in Hinv as [_ ->]. simpl. now rewrite <- app_assoc.
Qed.

(** X7. With the run flag set, a Forward, Backward or Gradient that
    succeeds has called the same method of every child exactly once, in the
    order of the children, and no other child method. *)
Theorem AddMerge_run_calls
  (am : AddMergeType) (input gy error : mat) (w : world) :
  run am = true ->
  (forall r w', Forward am input w = Ok (r, w') ->
     calls w' = calls w ++ map CallForward (seq 0 (length (network am)))) /\
  (forall r w', Backward am input gy w = Ok (r, w') ->
     calls w' = calls w ++ map CallBackward (seq 0 (length (network am)))) /\
  (forall r w', Gradient am input error w = Ok (r, w') ->
     calls w' = calls w ++ map CallGradient (seq 0 (length (network am)))).
Proof.
  intros Hrun. split; [|split]; intros r w' H.
  - unfold Forward, forward_children, bind in H. rewrite Hrun in H.
    destruct (for_each _ 0 (network am) w) as [[cs w1]|e] eqn:Hloop; [|discriminate].
    unfold lift_result, ret in H.
    destruct (merge OutputParameter cs); [|discriminate].
    injection H as _ <-.
    exact (for_each_calls_any CallForward (fun c => child_Forward c input)
             _ _ _ _ _ Hloop).
  - unfold Backward, bind in H. rewrite Hrun in H.
    destruct (for_each _ 0 (network am) w) as [[cs w1]|e] eqn:Hloop; [|discriminate].
    unfold lift_result, ret in H. destruct (merge Delta cs); [|discriminate].
    injection H as _ <-.
    exact (for_each_calls_any CallBackward (fun c => child_Backward c gy)
             _ _ _ _ _ Hloop).
  - unfold Gradient, bind in H. rewrite Hrun in H.
    destruct (for_each _ 0 (network am) w) as [[cs w1]|e] eqn:Hloop; [|discriminate].
    unfold ret in H. injection H as _ <-.
    exact (for_each_calls_any CallGradient (fun c => child_Gradient c input error)
             _ _ _ _ _ Hloop).
Qed.

(** X8. Whatever the run flag is, a successful Forward, Backward or
    Gradient keeps the number of children and the three flags, and writes
    only its own buffer of each child: Forward leaves every child's delta and
    gradient as they were, Backward every output and gradient, Gradient every
    output and delta. *)
Theorem AddMerge_frames
  (am : AddMergeType) (input gy error : mat) (w : world) :
  (forall am' output w', Forward am input w = Ok ((am', output), w') ->
     length (network am') = length (network am) /\
     (model am', run am', ownsLayers am') = (model am, run am, ownsLayers am) /\
     map Delta (network am') = map Delta (network am) /\
     map Gradient_ (network am') = map Gradient_ (network am)) /\
  (forall am' g w', Backward am input gy w = Ok ((am', g), w') ->
     length (network am') = length (network am) /\
     (model am', run am', ownsLayers am') = (model am, run am, ownsLayers am) /\
     map OutputParameter (network am') = map OutputParameter (network am) /\
     map Gradient_ (network am') = map Gradient_ (network am)) /\
  (forall am' w', Gradient am input error w = Ok (am', w') ->
     length (network am') = length (network am) /\
     (model am', run am', ownsLayers am') = (model am, run am, ownsLayers am) /\
     map OutputParameter (network am') = map OutputParameter (network am) /\
     map Delta (network am') = map Delta (network am)).
Proof.
  split; [|split].
  - intros am' output w' H. unfold Forward, forward_children, bind in H.
    destruct (run am) eqn:Hrun.
    + destruct (for_each _ 0 (network am) w) as [[cs w1]|e] eqn:Hloop;
        [|discriminate].
      unfold lift_result, ret in H.
      destruct (merge OutputParameter cs); [|discriminate].
      injection H as <- _ _. simpl.
      assert (HR : Forall2 (fun c c' => Delta c' = Delta c /\
                                        Gradient_ c' = Gradient_ c)
                           (network am) cs).
      { eapply for_each_Forall2; [|exact Hloop].
        intros i c w0 c' w0' Hc. apply invoke_inv in Hc as [Hc _].
        now apply child_Forward_inv in Hc as (_ & ? & ?). }
      split; [eapply Forall2_length_eq; exact HR|].
      split; [now rewrite ?Hrun|].
      split; apply Forall2_map_eq; eapply Forall2_impl; try exact HR;
        simpl; intros ? ? [? ?]; assumption.
    + unfold ret, lift_result in H.
      destruct (merge OutputParameter (network am)); [|discriminate].
      injection H as <- _ _. simpl. rewrite ?Hrun. repeat split.
  - intros am' g w' H. unfold Backward, bind in H.
    destruct (run am) eqn:Hrun.
    + destruct (for_each _ 0 (network am) w) as [[cs w1]|e] eqn:Hloop;
        [|discriminate].
      unfold lift_result, ret in H. destruct (merge Delta cs); [|discriminate].
      injection H as <- _ _. simpl.
      assert (HR : Forall2 (fun c c' => OutputParameter c' = OutputParameter c /\
                                        Gradient_ c' = Gradient_ c)
                           (network am) cs).
      { eapply for_each_Forall2; [|exact Hloop].
        intros i c w0 c' w0' Hc. apply invoke_inv in Hc as [Hc _].
        now apply child_Backward_inv in Hc as (_ & ? & ?). }
      split; [eapply Forall2_length_eq; exact HR|].
      split; [now rewrite ?Hrun|].
      split; apply Forall2_map_eq; eapply Forall2_impl; try exact HR;
        simpl; intros ? ? [? ?]; assumption.
    + unfold ret in H. injection H as <- _ _. rewrite ?Hrun. repeat split.
  - intros am' w' H. unfold Gradient, bind in H.
    destruct (run am) eqn:Hrun.
    + destruct (for_each _ 0 (network am) w) as [[cs w1]|e] eqn:Hloop;
        [|discriminate].
      unfold ret in H. injection H as <- _. simpl.
      assert (HR : Forall2 (fun c c' => OutputParameter c' = OutputParameter c /\
                                        Delta c' = Delta c)
                           (network am) cs).
      { eapply for_each_Forall2; [|exact Hloop].
        intros i c w0 c' w0' Hc. apply invoke_inv in Hc as [Hc _].
        now apply child_Gradient_inv in Hc as (_ & ? & ?). }
      split; [eapply Forall2_length_eq; exact HR|].
      split; [now rewrite ?Hrun|].
      split; apply Forall2_map_eq; eapply Forall2_impl; try exact HR;
        simpl; intros ? ? [? ?]; assumption.
    + unfold ret in H. injection H as <- _. rewrite ?Hrun. repeat split.
Qed.

End AddMergeMore.

Section AddMergeSums.
Context {E : ElemType} {L : Type} {LL : Layer.Layer L}.

Import AddMerge.

Local Abbreviation Child := (@AddMerge.Child E L).
Local Abbreviation AddMergeType := (@AddMerge.AddMergeType E L).
Local Abbreviation world := (@AddMerge.world E).

Lemma same_size_sym (A B : mat) : same_size A B = true -> same_size B A = true.
Proof.
  intros H. destruct (same_size_eq _ _ H) as [Hr Hc].
  unfold same_size. now rewrite Hr, Hc, !Nat.eqb_refl.
Qed.

Lemma same_size_trans (A B C : mat) :
  same_size A B = true -> same_size B C = true -> same_size A C = true.
Proof.
  intros H1 H2. destruct (same_size_eq _ _ H1) as [Hr1 Hc1].
  destruct (same_size_eq _ _ H2) as [Hr2 Hc2].
  unfold same_size. now rewrite Hr1, Hc1, Hr2, Hc2, !Nat.eqb_refl.
Qed.

Lemma plus_ok_same_size (A B C : mat) :
  plus A B = Ok C -> same_size A B = true.
Proof.
  unfold plus, elementwise. destruct (same_size A B); [reflexivity|discriminate].
Qed.

(** When the loop [output += ...] succeeds, all the matrices it added have
    one size, and the total is their entrywise sum. *)
Lemma accumulate_ok_sum (buffer : Child -> mat) (cs : list Child)
      (output total : mat) :
  accumulate buffer output cs = Ok total ->
  wf output ->
  Forall (fun c => wf (buffer c)) cs ->
  same_size output total = true /\
  wf total /\
  Forall (fun c => same_size output (buffer c) = true) cs /\
  forall k, k < n_elem total ->
    at_ total k = entry_sum output (map buffer cs) k.
Proof.
  revert output. induction cs as [|c cs IH]; intros output H Hwf Hall; simpl in H.
  - injection H as <-. split; [apply same_size_refl|]. split; [assumption|].
    split; [constructor|]. reflexivity.
  - inversion Hall as [|? ? Hc Hcs]; subst.
    destruct (plus output (buffer c)) as [out'|e] eqn:Hplus; [|discriminate].
    pose proof (plus_ok_same_size _ _ _ Hplus) as Hs.
    destruct (plus_fits output (buffer c) Hwf (conj Hs Hc))
      as (out2 & Hplus2 & Hs2 & Hwf2 & Hat).
    rewrite Hplus in Hplus2. injection Hplus2 as <-.
    destruct (IH out' H Hwf2 Hcs) as (Hst & Hwft & Hsizes & Hsum).
    split; [now apply (same_size_trans output out' total)|].
    split; [assumption|]. split.
    + constructor; [assumption|].
      eapply Forall_impl; [|exact Hsizes]. intros c' Hc'.
      now apply (same_size_trans output out').
    + intros k Hk. rewrite (Hsum k Hk). unfold entry_sum. simpl.
      rewrite Hat; [reflexivity|].
      destruct (same_size_eq _ _ Hst) as [Hr Hc'].
      unfold n_elem in *. now rewrite Hr, Hc'.
Qed.

(** X9. With the run flag set, a Backward that succeeds has run every
    child's Backward on that child's own stored output and on the one
    upstream error [gy], and stored the result as the child's delta; the
    deltas then have one size, and the downstream error is their entrywise
    sum, the first child first. *)
Theorem AddMerge_Backward_sum
  (am am' : AddMergeType) (input gy g : mat) (w w' : world) :
  run am = true ->
  Backward am input gy w = Ok ((am', g), w') ->
  Forall (fun c => wf (Delta c)) (network am') ->
  exists c cs,
    network am' = c :: cs /\
    Forall2 (fun c0 c' =>
               exists g0 g1,
                 Layer.Backward (layer c0) (OutputParameter c0) gy g0
                 = Ok ((layer c', Delta c'), g1))
            (network am) (network am') /\
    Forall (fun c' => same_size (Delta c) (Delta c') = true) cs /\
    same_size (Delta c) g = true /\
    wf g /\
    forall k, k < n_elem g -> at_ g k = entry_sum (Delta c) (map Delta cs) k.
Proof.
  intros Hrun H Hwf. unfold Backward, bind in H. rewrite Hrun in H.
  destruct (for_each _ 0 (network am) w) as [[cs0 w1]|e] eqn:Hloop; [|discriminate].
  unfold lift_result, ret in H.
  destruct (merge Delta cs0) as [total|e] eqn:Hmerge; [|discriminate].
  injection H as <- <- _. simpl in *.
  destruct cs0 as [|c cs]; [discriminate|]. simpl in Hmerge.
  inversion Hwf as [|? ? Hc Hcs]; subst.
  destruct (accumulate_ok_sum Delta cs (Delta c) total Hmerge Hc Hcs)
    as (Hst & Hwft & Hsizes & Hsum).
  exists c, cs. split; [reflexivity|]. split; [|auto].
  eapply for_each_Forall2; [|exact Hloop].
  intros i c0 w0 c' w0' Hc0. apply invoke_inv in Hc0 as [Hc0 _].
  apply child_Backward_inv in Hc0 as (Hb & _ & _).
  now exists (gen w0), (gen w0').
Qed.

(** X10. With the run flag false, Forward reads neither its input nor the
    generator and calls no child: on every input it returns the same output,
    the entrywise sum of the outputs the children already hold, and leaves
    the layer, the generator and the record of calls as they were. *)
Theorem AddMerge_Forward_not_run
  (am : AddMergeType) (w : world) (c : Child) (cs : list Child) :
  run am = false ->
  network am = c :: cs ->
  wf (OutputParameter c) ->
  Forall (fun c' => fits (OutputParameter c) (OutputParameter c')) cs ->
  exists output,
    (forall input, Forward am input w = Ok ((am, output), w)) /\
    same_size (OutputParameter c) output = true /\
    forall k, k < n_elem output ->
      at_ output k = entry_sum (OutputParameter c) (map OutputParameter cs) k.
Proof.
  intros Hrun Hnet Hwf Hfits.
  destruct (accumulate_sum OutputParameter cs (OutputParameter c) Hwf Hfits)
    as (total & Hacc & Hs & _ & Hsum).
  exists total. split; [|split; assumption].
  intros input. unfold Forward, forward_children, bind. rewrite Hrun.
  unfold ret, lift_result. rewrite Hnet. simpl. rewrite Hacc.
  rewrite <- Hnet. now rewrite set_network_same.
Qed.

Lemma replace_at_length (cs : list Child) (i : nat) (c' : Child) :
  length (replace_at cs i c') = length cs.
Proof.
  revert i. induction cs as [|c cs IH]; intros [|i]; simpl; auto.
Qed.

Lemma replace_at_same (cs : list Child) (i : nat) (c c' : Child) :
  nth_error cs i = Some c -> nth_error (replace_at cs i c') i = Some c'.
Proof.
  revert i. induction cs as [|c0 cs IH]; intros [|i] H; simpl in *;
    try discriminate; auto.
Qed.

Lemma replace_at_other (cs : list Child) (i j : nat) (c' : Child) :
  j <> i -> nth_error (replace_at cs i c') j = nth_error cs j.
Proof.
  revert i j. induction cs as [|c0 cs IH]; intros [|i] [|j] H; simpl;
    try reflexivity; try congruence.
  apply IH. congruence.
Qed.

(** X11. The indexed Backward does not look at the run flag. For an index
    outside the children it fails (out of bounds); otherwise, when it
    succeeds, it has called the Backward of the child at that index, once,
    on the child's stored output and [gy], returns that child's new delta
    as the downstream error, and leaves every other child as it was. *)
Theorem AddMerge_Backward_index
  (am : AddMergeType) (input gy : mat) (index : nat) (w : world) :
  (length (network am) <= index ->
   Backward_index am input gy index w = Err out_of_bounds) /\
  (forall am' g w',
     Backward_index am input gy index w = Ok ((am', g), w') ->
     calls w' = calls w ++ [CallBackward index] /\
     length (network am') = length (network am) /\
     (exists c c',
         nth_error (network am) index = Some c /\
         nth_error (network am') index = Some c' /\
         Layer.Backward (layer c) (OutputParameter c) gy (gen w)
         = Ok ((layer c', Delta c'), gen w') /\
         g = Delta c') /\
     forall j, j <> index ->
       nth_error (network am') j = nth_error (network am) j).
Proof.
  unfold Backward_index. split.
  - intros Hle. apply nth_error_None in Hle. now rewrite Hle.
  - intros am' g w' H.
    destruct (nth_error (network am) index) as [c|] eqn:Hnth; [|discriminate].
    unfold bind in H.
    destruct (invoke (CallBackward index) (child_Backward c gy) w)
      as [[c' w1]|e] eqn:Hinv; [|discriminate].
    unfold ret in H. injection H as <- <- <-. simpl.
    apply invoke_inv in Hinv as [Hb Hcalls].
    apply child_Backward_inv in Hb as (Hb & _ & _).
    split; [assumption|]. split; [apply replace_at_length|]. split.
    + exists c, c'. split; [reflexivity|].
      split; [now apply (replace_at_same _ _ c)|]. split; [assumption|reflexivity].
    + intros j Hj. now apply replace_at_other.
Qed.

(** X12. The indexed Gradient does not look at the run flag either. For an
    index outside the children it fails (out of bounds); otherwise, when it
    succeeds, it has called the Gradient of the child at that index, once,
    on [input], [error] and the child's own gradient buffer, and leaves every
    other child, and that child's output and delta, as they were. *)
Theorem AddMerge_Gradient_index
  (am : AddMergeType) (input error : mat) (index : nat) (w : world) :
  (length (network am) <= index ->
   Gradient_index am input error index w = Err out_of_bounds) /\
  (forall am' w',
     Gradient_index am input error index w = Ok (am', w') ->
     calls w' = calls w ++ [CallGradient index] /\
     length (network am') = length (network am) /\
     (exists c c',
         nth_error (network am) index = Some c /\
         nth_error (network am') index = Some c' /\
         Layer.Gradient (layer c) input error (Gradient_ c) (gen w)
         = Ok ((layer c', Gradient_ c'), gen w') /\
         OutputParameter c' = OutputParameter c /\
         Delta c' = Delta c) /\
     forall j, j <> index ->
       nth_error (network am') j = nth_error (network am) j).
Proof.
  unfold Gradient_index. split.
  - intros Hle. apply nth_error_None in Hle. now rewrite Hle.
  - intros am' w' H.
    destruct (nth_error (network am) index) as [c|] eqn:Hnth; [|discriminate].
    unfold bind in H.
    destruct (invoke (CallGradient index) (child_Gradient c input error) w)
      as [[c' w1]|e] eqn:Hinv; [|discriminate].
    unfold ret in H. injection H as <- <-. simpl.
    apply invoke_inv in Hinv as [Hb Hcalls].
    apply child_Gradient_inv in Hb as (Hb & Ho & Hd).
    split; [assumption|]. split; [apply replace_at_length|]. split.
    + exists c, c'. split; [reflexivity|].
      split; [now apply (replace_at_same _ _ c)|]. auto.
    + intros j Hj. now apply replace_at_other.
Qed.

(** X13. A layer without children, as either constructor leaves it: Forward
    fails for either value of the run flag (it reads the first child),
    Backward fails when the flag is set and hands [gy] through when it is
    not, and Gradient succeeds and changes nothing. This holds of the
    two-argument constructor and of the three-argument constructor with
    either value of [ownsLayers]. *)
Theorem AddMerge_without_children
  (model run ownsLayers : bool) (input gy error : mat) (w : world) :
  (let am : AddMergeType := Construct model run in
   Forward am input w = Err out_of_bounds /\
   Backward am input gy w
   = (if run then Err out_of_bounds else Ok ((am, gy), w)) /\
   Gradient am input error w = Ok (am, w)) /\
  (let am : AddMergeType := Construct3 model run ownsLayers in
   Forward am input w = Err out_of_bounds /\
   Backward am input gy w
   = (if run then Err out_of_bounds else Ok ((am, gy), w)) /\
   Gradient am input error w = Ok (am, w)).
Proof.
  destruct run; repeat split.
Qed.

(** X14. Which children the destructor deletes. A layer built with the
    two-argument constructor deletes all its children when [model] is false
    and none when it is true; with [model] true no child is ever deleted,
    whatever [ownsLayers] was passed to the three-argument constructor. *)
Theorem AddMerge_Destroy_ownership
  (model run ownsLayers : bool) (cs : list Child) :
  Destroy (set_network (Construct model run) cs) = (if model then [] else cs) /\
  Destroy (set_network (Construct3 true run ownsLayers) cs) = [] /\
  Destroy (set_network (Construct3 false run ownsLayers) cs)
  = (if ownsLayers then cs else []).
Proof.
  destruct model, ownsLayers; repeat split.
Qed.

End AddMergeSums.

Lemma AddMerge_run_calls_witness :
  exists r w',
    AddMerge.Backward (LL:=Dropout.layer) (Sample.merged true)
                      Sample.input Sample.upstream Sample.start
    = Ok (r, w') /\
    AddMerge.calls w' = [AddMerge.CallBackward 0; AddMerge.CallBackward 1].
Proof.
  pose proof (@AddMerge_run_calls double _ Dropout.layer (Sample.merged true)
                Sample.input Sample.upstream Sample.upstream Sample.start
                eq_refl) as (_ & HB & _).
  eexists _, _. split; [reflexivity|].
  eapply HB. reflexivity.
Defined.

Lemma AddMerge_Backward_sum_witness :
  let delta := @Build_mat double 3 2 [16; 0; 0; 0; 80; 96]%float in
  let c' := AddMerge.Build_Child Sample.trained Sample.input delta empty in
  let am' := AddMerge.set_network (Sample.merged true) [c'; c'] in
  let g := @Build_mat double 3 2 [32; 0; 0; 0; 160; 192]%float in
  exists c cs,
    AddMerge.network am' = c :: cs /\
    same_size (AddMerge.Delta c) g = true /\
    forall k, k < 6 ->
      at_ g k = entry_sum (AddMerge.Delta c) (map AddMerge.Delta cs) k.
Proof.
  intros delta c' am' g.
  destruct (@AddMerge_Backward_sum double _ Dropout.layer
              (Sample.merged true) am' Sample.input Sample.upstream g
              Sample.start
              (@AddMerge.Build_world double Sample.generator
                 [AddMerge.CallBackward 0; AddMerge.CallBackward 1])
              eq_refl eq_refl)
    as (c & cs & Hnet & _ & _ & Hs & _ & Hsum).
  - repeat constructor.
  - exists c, cs. split; [exact Hnet|]. split; [exact Hs|exact Hsum].
Defined.

Lemma AddMerge_Forward_not_run_witness :
  exists output,
    (forall input,
        AddMerge.Forward (LL:=Dropout.layer) (Sample.merged false) input
                         Sample.start
        = Ok ((Sample.merged false, output), Sample.start)) /\
    same_size Sample.input output = true.
Proof.
  destruct (@AddMerge_Forward_not_run double _ Dropout.layer
              (Sample.merged false) Sample.start Sample.ran [Sample.ran]
              eq_refl eq_refl eq_refl)
    as (output & HF & Hs & _).
  - repeat constructor.
  - exists output. split; [exact HF|exact Hs].
Defined.

Lemma AddMerge_Backward_index_witness :
  (AddMerge.Backward_index (LL:=Dropout.layer) (Sample.merged false)
                           Sample.input Sample.upstream 2 Sample.start
   = Err out_of_bounds) /\
  exists am' g w',
    AddMerge.Backward_index (LL:=Dropout.layer) (Sample.merged false)
                            Sample.input Sample.upstream 1 Sample.start
    = Ok ((am', g), w') /\
    AddMerge.calls w' = [AddMerge.CallBackward 1] /\
    nth_error (AddMerge.network am') 0 = Some Sample.ran.
Proof.
  split.
  - apply (@AddMerge_Backward_index double _ Dropout.layer). simpl. lia.
  - eexists _, _, _. split; [reflexivity|].
    edestruct (@AddMerge_Backward_index double _ Dropout.layer
                 (Sample.merged false) Sample.input Sample.upstream 1
                 Sample.start) as (_ & Hok).
    edestruct Hok as (Hcalls & _ & _ & Hother); [reflexivity|].
    split; [exact Hcalls|].
    exact (Hother 0 ltac:(discriminate)).
Defined.

Lemma AddMerge_Gradient_index_witness :
  exists am' w',
    AddMerge.Gradient_index (LL:=Dropout.layer) (Sample.merged false)
                            Sample.input Sample.upstream 0 Sample.start
    = Ok (am', w') /\
    AddMerge.calls w' = [AddMerge.CallGradient 0] /\
    nth_error (AddMerge.network am') 1 = Some Sample.ran.
Proof.
  eexists _, _. split; [reflexivity|].
  edestruct (@AddMerge_Gradient_index double _ Dropout.layer
               (Sample.merged false) Sample.input Sample.upstream 0
               Sample.start) as (_ & Hok).
  edestruct Hok as (Hcalls & _ & _ & Hother); [reflexivity|].
  split; [exact Hcalls|].
  exact (Hother 1 ltac:(discriminate)).
Defined.

Lemma AddMerge_frames_witness :
  exists am' g w',
    AddMerge.Backward (LL:=Dropout.layer) (Sample.merged true)
                      Sample.input Sample.upstream Sample.start
    = Ok ((am', g), w') /\
    map AddMerge.OutputParameter (AddMerge.network am')
    = [Sample.input; Sample.input].
Proof.
  eexists _, _, _. split; [reflexivity|].
  edestruct (@AddMerge_frames double _ Dropout.layer (Sample.merged true)
               Sample.input Sample.upstream Sample.upstream Sample.start)
    as (_ & HB & _).
  edestruct HB as (_ & _ & Hout & _); [reflexivity|].
  exact Hout.
Defined.

(** ** Linear: the output descriptor *)

Section LinearMore.
Context {E : ElemType}.

Import Linear.

Lemma fold_left_mul_ones (n : nat) (z : Z) :
  fold_left Z.mul (repeat 1%Z n) z = z.
Proof.
  revert z. induction n as [|n IH]; intros z; simpl; [reflexivity|].
  rewrite IH. lia.
Qed.

(** X15. ComputeOutputDimensions fails exactly on an empty input descriptor
    (it writes the first extent of the output descriptor). Otherwise the
    output descriptor has as many extents as the input descriptor, the first
    of them [outSize] and all the others 1, so that it describes [outSize]
    elements; the input descriptor, [outSize] and the weights are not
    changed. *)
Theorem Linear_ComputeOutputDimensions_descriptor (l : LinearType) :
  (ComputeOutputDimensions l = Err out_of_bounds <-> inputDimensions l = []) /\
  (forall l', ComputeOutputDimensions l = Ok l' ->
     outputDimensions l'
     = outSize l :: repeat 1%Z (length (inputDimensions l) - 1) /\
     length (outputDimensions l') = length (inputDimensions l) /\
     spec_element_count (outputDimensions l') = outSize l /\
     inputDimensions l' = inputDimensions l /\
     outSize l' = outSize l /\
     (weights l', weight l', bias l') = (weights l, weight l, bias l)).
Proof.
  unfold ComputeOutputDimensions.
  destruct (inputDimensions l) as [|x dims] eqn:Hdims; simpl.
  - split; [split; reflexivity|]. intros l' H. discriminate H.
  - split; [split; discriminate|]. intros l' H. injection H as <-. simpl.
    rewrite Nat.sub_0_r, repeat_length.
    split; [reflexivity|]. split; [reflexivity|].
    split; [|repeat split; assumption].
    unfold spec_element_count. simpl. rewrite fold_left_mul_ones.
    destruct (outSize l); reflexivity.
Qed.

(** X16. ComputeOutputDimensions is idempotent: applied to the layer it
    returned, it returns that layer again. *)
Theorem Linear_ComputeOutputDimensions_idempotent (l l' : LinearType) :
  ComputeOutputDimensions l = Ok l' ->
  ComputeOutputDimensions l' = Ok l'.
Proof.
  unfold ComputeOutputDimensions.
  destruct (repeat 1%Z (length (inputDimensions l))) as [|o ones] eqn:Hrep;
    [discriminate|].
  intros H. injection H as <-. simpl. now rewrite Hrep.
Qed.

(** X17. For a flat input descriptor (n) with 0 <= n < 2^31,
    ComputeOutputDimensions stores n as the input size, which is the element
    count of the descriptor, and the output descriptor (outSize); the weight
    count is then n * outSize + outSize, modulo 2^64. *)
Theorem Linear_flat_input (l : LinearType) (n : Z) :
  inputDimensions l = [n] ->
  (0 <= n < 2 ^ 31)%Z ->
  exists l',
    ComputeOutputDimensions l = Ok l' /\
    inSize l' = n /\
    spec_element_count (inputDimensions l') = n /\
    outputDimensions l' = [outSize l] /\
    WeightSize l' = ((n * outSize l + outSize l) mod 2 ^ 64)%Z.
Proof.
  intros Hdims Hn.
  assert (Hin : to_size_t (accumulate [n] 0) = n).
  { unfold accumulate, to_int, to_size_t. cbn [fold_left].
    rewrite (Z.mod_small 0) by lia.
    rewrite (Z.mod_small (0 + n)) by lia.
    rewrite (Z.mod_small (0 + n + 2 ^ 31)) by lia.
    rewrite Z.mod_small; lia. }
  unfold ComputeOutputDimensions. rewrite Hdims.
  cbn [length repeat]. eexists. split; [reflexivity|].
  unfold WeightSize. cbn [inSize outSize inputDimensions outputDimensions].
  rewrite Hin.
  split; [reflexivity|]. split; [|split; [reflexivity|]].
  - unfold spec_element_count. cbn [fold_left]. lia.
  - unfold to_size_t. now rewrite Zplus_mod_idemp_l.
Qed.

End LinearMore.

Lemma Linear_ComputeOutputDimensions_idempotent_witness :
  let l := @Linear.Build_LinearType double [3; 2]%Z [] 0%Z 4%Z
             empty empty empty in
  let l' := @Linear.Build_LinearType double [3; 2]%Z [4; 1]%Z 5%Z 4%Z
              empty empty empty in
  Linear.ComputeOutputDimensions l = Ok l' /\
  Linear.ComputeOutputDimensions l' = Ok l'.
Proof.
  intros l l'. split; [reflexivity|].
  apply (Linear_ComputeOutputDimensions_idempotent l l'). reflexivity.
Defined.

Lemma Linear_flat_input_witness :
  exists l',
    Linear.ComputeOutputDimensions
      (@Linear.Build_LinearType double [10]%Z [] 0%Z 4%Z empty empty empty)
    = Ok l' /\
    Linear.inSize l' = 10%Z /\
    Linear.WeightSize l' = 44%Z.
Proof.
  destruct (Linear_flat_input
              (@Linear.Build_LinearType double [10]%Z [] 0%Z 4%Z
                                        empty empty empty)
              10%Z eq_refl ltac:(lia))
    as (l' & HC & Hin & _ & _ & HW).
  exists l'. split; [exact HC|]. split; [exact Hin|exact HW].
Defined.

(** ** The network: layers and their buffers *)

Section FFNMore.
Context {E : ElemType} {OutputLayerType InitializationRuleType LayerType : Type}.

Import FFN.

Local Abbreviation FFN :=
  (@FFN.FFN E OutputLayerType InitializationRuleType LayerType).

Lemma Add_buffers_match (net : FFN) (layer : LayerType) :
  buffers_match net -> buffers_match (Add net layer).
Proof.
  unfold buffers_match. simpl. intros (Ho & Hd & Hg).
  rewrite !length_app. simpl. lia.
Qed.

(** X18. Adding layers one after the other puts them, in that order, after
    the layers the network already had. A network that holds one output,
    delta and gradient matrix per layer still does so afterwards; the stored
    parameters, predictors and responses are not touched, and once at least
    one layer was added the dimensions count as not resolved. *)
Theorem FFN_Add_all (net : FFN) (layers : list LayerType) :
  buffers_match net ->
  let net' := fold_left Add layers net in
  network net' = network net ++ layers /\
  buffers_match net' /\
  (parameters net', predictors net', responses net')
  = (parameters net, predictors net, responses net) /\
  (layers <> [] -> inputDimensionsAreSet net' = false).
Proof.
  revert net. induction layers as [|layer layers IH]; intros net Hm; simpl.
  - rewrite app_nil_r. split; [reflexivity|]. split; [assumption|].
    split; [reflexivity|]. intros Hne. now contradiction Hne.
  - destruct (IH (Add net layer) (Add_buffers_match net layer Hm))
      as (Hnet & Hm' & Hdata & Hflag).
    split; [|split; [assumption|split; [assumption|]]].
    + rewrite Hnet. simpl. now rewrite <- app_assoc.
    + intros _. destruct layers as [|layer' layers'].
      * reflexivity.
      * apply Hflag. discriminate.
Qed.

(** X19. A layer pushed through the reference that Model() returns, instead
    of through Add, is not followed by the bookkeeping: the flag
    [inputDimensionsAreSet] stays as it was, and a network that held one
    output, delta and gradient matrix per layer no longer does, while after
    Add of the same layer it still does. *)
Theorem FFN_Model_push_back (net : FFN) (layer : LayerType) :
  buffers_match net ->
  let net' := Model_assign net (network net ++ [layer]) in
  network net' = network (Add net layer) /\
  inputDimensionsAreSet net' = inputDimensionsAreSet net /\
  ~ buffers_match net' /\
  buffers_match (Add net layer).
Proof.
  intros Hm net'. split; [reflexivity|]. split; [reflexivity|]. split.
  - unfold buffers_match in *. simpl. rewrite length_app. simpl.
    destruct Hm as (Ho & _ & _). intros (Ho' & _ & _). lia.
  - now apply Add_buffers_match.
Qed.

End FFNMore.

Lemma FFN_Add_all_witness :
  let net' := fold_left FFN.Add [2; 3] Sample.net in
  FFN.network net' = [0; 1; 2; 3] /\
  buffers_match net' /\
  FFN.inputDimensionsAreSet net' = false.
Proof.
  destruct (@FFN_Add_all double unit unit nat Sample.net [2; 3])
    as (Hnet & Hm & _ & Hflag).
  - repeat split.
  - split; [exact Hnet|]. split; [exact Hm|].
    apply Hflag. discriminate.
Defined.

Lemma FFN_Model_push_back_witness :
  let net' := FFN.Model_assign Sample.net [0; 1; 2] in
  FFN.inputDimensionsAreSet net' = true /\ ~ buffers_match net'.
Proof.
  destruct (@FFN_Model_push_back double unit unit nat Sample.net 2)
    as (_ & Hflag & Hbreak & _).
  - repeat split.
  - split; [exact Hflag|exact Hbreak].
Defined.

(** ** AddMerge: Gradient of the children, and outputs of different sizes *)

Section AddMergeSizes.
Context {E : ElemType} {L : Type} {LL : Layer.Layer L}.

Import AddMerge.

Local Abbreviation Child := (@AddMerge.Child E L).
Local Abbreviation AddMergeType := (@AddMerge.AddMergeType E L).
Local Abbreviation world := (@AddMerge.world E).

(** X20. With the run flag set, a Gradient that succeeds has run every
    child's Gradient on the one [input] and the one [error] and on that
    child's own gradient buffer, and stored what it wrote in that buffer. *)
Theorem AddMerge_Gradient_children
  (am am' : AddMergeType) (input error : mat) (w w' : world) :
  run am = true ->
  Gradient am input error w = Ok (am', w') ->
  Forall2 (fun c c' =>
             exists g0 g1,
               Layer.Gradient (layer c) input error (Gradient_ c) g0
               = Ok ((layer c', Gradient_ c'), g1))
          (network am) (network am').
Proof.
  intros Hrun H. unfold Gradient, bind in H. rewrite Hrun in H.
  destruct (for_each _ 0 (network am) w) as [[cs w1]|e] eqn:Hloop; [|discriminate].
  unfold ret in H. injection H as <- _. simpl.
  eapply for_each_Forall2; [|exact Hloop].
  intros i c w0 c' w0' Hc. apply invoke_inv in Hc as [Hc _].
  apply child_Gradient_inv in Hc as (Hg & _ & _).
  now exists (gen w0), (gen w0').
Qed.

Lemma same_size_dims (A A' B : mat) :
  n_rows A' = n_rows A -> n_cols A' = n_cols A ->
  same_size A' B = same_size A B.
Proof.
  unfold same_size. now intros -> ->.
Qed.

(** The loop [output += ...] succeeds exactly when every matrix it adds has
    the size of [output]; the only failure is that of the sizes. *)
Lemma accumulate_sizes (buffer : Child -> mat) (cs : list Child) (output : mat) :
  (forallb (fun c => same_size output (buffer c)) cs = true ->
   exists total, accumulate buffer output cs = Ok total /\
                 same_size output total = true) /\
  (forallb (fun c => same_size output (buffer c)) cs = false ->
   accumulate buffer output cs = Err incompatible_dimensions).
Proof.
  revert output. induction cs as [|c cs IH]; intros output; simpl.
  - split; [|discriminate]. intros _. exists output.
    split; [reflexivity|apply same_size_refl].
  - unfold plus, elementwise.
    destruct (same_size output (buffer c)) eqn:Hs; simpl.
    + set (out' := {| n_rows := n_rows output; n_cols := n_cols output;
                      mem := map2 eadd (mem output) (mem (buffer c)) |}).
      assert (Heq : forallb (fun c0 => same_size out' (buffer c0)) cs
                    = forallb (fun c0 => same_size output (buffer c0)) cs).
      { clear. induction cs as [|c0 cs IHcs]; simpl; [reflexivity|].
        now rewrite IHcs, (same_size_dims output out'). }
      destruct (IH out') as [Hok Herr]. rewrite Heq in Hok, Herr.
      split; [|exact Herr].
      intros Hall. destruct (Hok Hall) as (total & Hacc & Hst).
      exists total. split; [exact Hacc|].
      now rewrite <- (same_size_dims output out' total).
    + split; [discriminate|reflexivity].
Qed.

(** X21. Once the children have been run forward, Forward succeeds exactly
    when every child's output has the size of the first child's output, and
    then returns a matrix of that size; when some child's output has another
    size it fails with incompatible dimensions. *)
Theorem AddMerge_Forward_sizes
  (am : AddMergeType) (input : mat) (w w' : world)
  (c : Child) (cs : list Child) :
  forward_children am input w = Ok (c :: cs, w') ->
  let one_size :=
    forallb (fun c' => same_size (OutputParameter c) (OutputParameter c')) cs in
  (one_size = true ->
   exists output,
     Forward am input w = Ok ((set_network am (c :: cs), output), w') /\
     same_size (OutputParameter c) output = true) /\
  (one_size = false -> Forward am input w = Err incompatible_dimensions).
Proof.
  intros Hchildren one_size.
  destruct (accumulate_sizes OutputParameter cs (OutputParameter c)) as [Hok Herr].
  unfold Forward, bind. rewrite Hchildren. unfold lift_result, merge, ret.
  split; intros H.
  - destruct (Hok H) as (total & Hacc & Hs). exists total.
    rewrite Hacc. split; [reflexivity|exact Hs].
  - now rewrite (Herr H).
Qed.

End AddMergeSizes.

Lemma AddMerge_Gradient_children_witness :
  exists am' w',
    AddMerge.Gradient (LL:=Dropout.layer) (Sample.merged true)
                      Sample.input Sample.upstream Sample.start
    = Ok (am', w') /\
    length (AddMerge.network am') = 2.
Proof.
  eexists _, _. split; [reflexivity|].
  pose proof (@AddMerge_Gradient_children double _ Dropout.layer
                (Sample.merged true) _ Sample.input Sample.upstream
                Sample.start _ eq_refl eq_refl) as H.
  exact (Forall2_length_eq _ _ _ H).
Defined.

Lemma AddMerge_Forward_sizes_witness :
  let other := @AddMerge.Build_Child double _ Sample.trained Sample.responses
                                     empty empty in
  AddMerge.Forward (LL:=Dropout.layer)
    (AddMerge.set_network (Sample.merged false) [Sample.ran; other])
    Sample.input Sample.start
  = Err incompatible_dimensions.
Proof.
  intros other.
  apply (@AddMerge_Forward_sizes double _ Dropout.layer
           (AddMerge.set_network (Sample.merged false) [Sample.ran; other])
           Sample.input Sample.start Sample.start Sample.ran [other] eq_refl).
  reflexivity.
Defined.

(** ** AlphaDropout at ratio 0 *)



Section AlphaDropoutRatioZero.
Context {E : ElemType}.





End AlphaDropoutRatioZero.


